(** * nadi-gis: the output handlers of the QGIS plugin

    A shallow embedding of [qgis/nadi/nadi_exe.py] (the two stream handlers
    that [qgis_nadi_proc] installs on a [QgsBlockingProcess]) and of the
    status report that closes [processAlgorithm] in [nadi_order.py] and
    [nadi_network.py].

    Text is a list of characters.  A character is a code point below 256,
    so the whitespace and digit tables below are those of Python's [str]
    restricted to that range. *)

From Stdlib Require Import List Ascii String ZArith Bool Lia DecimalString.
Import ListNotations.

Local Open Scope string_scope.
Local Open Scope list_scope.

(** ** Text *)

Definition str := list ascii.

Definition NL : ascii := ascii_of_nat 10.

(** Literals are written as in the Python source: the two characters
    backslash and n stand for the newline. *)
Fixpoint of_string (s : string) : str :=
  match s with
  | String "\" (String "n" s') => NL :: of_string s'
  | String c s' => c :: of_string s'
  | EmptyString => []
  end.
Coercion of_string : string >-> str.

Definition texts (l : list string) : list str := map of_string l.

Definition COLON : ascii := ":"%char.

Definition str_eqb (a b : str) : bool :=
  if list_eq_dec ascii_dec a b then true else false.

Module Py.

(** [str.isspace] on one character: 0x09-0x0D, 0x1C-0x1F, 0x20, 0x85, 0xA0. *)
Definition isspace (c : ascii) : bool :=
  let n := nat_of_ascii c in
  (((9 <=? n) && (n <=? 13)) || ((28 <=? n) && (n <=? 32))
   || (n =? 133) || (n =? 160))%nat.

(** [s.lstrip()], [s.rstrip()] and [s.strip()], without argument. *)
Fixpoint lstrip (s : str) : str :=
  match s with
  | c :: s' => if isspace c then lstrip s' else s
  | [] => []
  end.

Definition rstrip (s : str) : str := rev (lstrip (rev s)).

Definition strip (s : str) : str := rstrip (lstrip s).

(** [s.endswith(c)] for a one-character suffix. *)
Definition endswith (c : ascii) (s : str) : bool :=
  match rev s with
  | d :: _ => Ascii.eqb d c
  | [] => false
  end.

(** [s.split(c)]: all the segments between occurrences of [c]; never the
    empty list. *)
Fixpoint split (c : ascii) (s : str) : list str :=
  match s with
  | [] => [[]]
  | d :: s' =>
      if Ascii.eqb d c then [] :: split c s'
      else match split c s' with
           | l :: ls => (d :: l) :: ls
           | [] => [[d]]
           end
  end.

(** [a, b = s.split(c, maxsplit=1)]: the text before and after the first
    [c]; [None] stands for the [ValueError] of unpacking a one-element
    list, raised when [s] has no [c]. *)
Fixpoint split1 (c : ascii) (s : str) : option (str * str) :=
  match s with
  | [] => None
  | d :: s' =>
      if Ascii.eqb d c then Some ([], s')
      else match split1 c s' with
           | Some (a, b) => Some (d :: a, b)
           | None => None
           end
  end.

(** [a, b = s.rsplit(c, maxsplit=1)]: the text before and after the last
    [c]; [None] is the [ValueError] again. *)
Fixpoint rsplit1 (c : ascii) (s : str) : option (str * str) :=
  match s with
  | [] => None
  | d :: s' =>
      match rsplit1 c s' with
      | Some (a, b) => Some (d :: a, b)
      | None => if Ascii.eqb d c then Some ([], s') else None
      end
  end.

(** [sep.join(l)] for a one-character separator. *)
Fixpoint join (c : ascii) (l : list str) : str :=
  match l with
  | [] => []
  | [a] => a
  | a :: l' => a ++ c :: join c l'
  end.

(** *** [int(s)]

    Base 10: whitespace, an optional sign, digits with single underscores
    between them, whitespace.  The blanks that [int] skips are the C ones
    (0x09-0x0D and 0x20) and the two non-ASCII spaces, which it first turns
    into 0x20; 0x1C-0x1F are not skipped.  [None] is the [ValueError],
    which [int] also raises when the numeral has more digits than the limit
    of the interpreter, 4300 unless configured otherwise; leading zeros
    count, underscores, sign and blanks do not. *)
Definition int_space (c : ascii) : bool :=
  let n := nat_of_ascii c in
  (((9 <=? n) && (n <=? 13)) || (n =? 32) || (n =? 133) || (n =? 160))%nat.

Definition isdigit (c : ascii) : bool :=
  let n := nat_of_ascii c in ((48 <=? n) && (n <=? 57))%nat.

Definition digit_value (c : ascii) : Z := Z.of_nat (nat_of_ascii c - 48).

Definition UNDERSCORE : ascii := "_"%char.

Fixpoint skip_space (s : str) : str :=
  match s with
  | c :: s' => if int_space c then skip_space s' else s
  | [] => []
  end.

(** The scan over digits and underscores: [prev_us] says that the previous
    character was an underscore; the result is the value and what follows
    the digits. *)
Fixpoint scan_digits (s : str) (prev_us : bool) (acc : Z) : option (Z * str) :=
  match s with
  | c :: s' =>
      if isdigit c then scan_digits s' false (10 * acc + digit_value c)
      else if Ascii.eqb c UNDERSCORE then
             if prev_us then None else scan_digits s' true acc
      else if prev_us then None else Some (acc, s)
  | [] => if prev_us then None else Some (acc, [])
  end.

(** [sys.get_int_max_str_digits()], at its default. *)
Definition max_str_digits : nat := 4300.

(** The number of digits in the run of digits and underscores that [s]
    begins with. *)
Fixpoint count_digits (s : str) : nat :=
  match s with
  | c :: s' =>
      if isdigit c then S (count_digits s')
      else if Ascii.eqb c UNDERSCORE then count_digits s'
      else 0%nat
  | [] => 0%nat
  end.

Definition unsigned (s : str) : option Z :=
  match s with
  | c :: _ =>
      if isdigit c then
        match scan_digits s false 0 with
        | Some (v, rest) =>
            if (count_digits s <=? max_str_digits)%nat then
              match skip_space rest with
              | [] => Some v
              | _ :: _ => None
              end
            else None
        | None => None
        end
      else None
  | [] => None
  end.

Definition int (s : str) : option Z :=
  match skip_space s with
  | c :: s' =>
      if Ascii.eqb c "+"%char then unsigned s'
      else if Ascii.eqb c "-"%char then option_map Z.opp (unsigned s')
      else unsigned (c :: s')
  | [] => None
  end.

End Py.

(** ** The feedback object

    The handlers only call methods of [feedback]; a call is recorded with
    its argument, in order. *)
Inductive feedback_call : Type :=
| setProgressText (label : str)
| setProgress (percent : Z)
| pushInfo (text : str)
| pushWarning (text : str)
| pushCommandInfo (text : str)
| reportError (text : str).

(** ** [qgis_nadi_proc]

    The three function attributes that the closure keeps between calls. *)
Record proc_state : Type := mkState {
  stdout_buffer : str;   (* stdout_handlr._buffer *)
  stdout_curr : str;     (* stdout_handlr._curr *)
  stderr_buffer : str    (* stderr_handlr._buffer *)
}.

Definition initial_state : proc_state :=
  {| stdout_buffer := []; stdout_curr := []; stderr_buffer := [] |}.

(** The body of the [for] loop of [stdout_handlr], on one [line], with the
    value of [_curr]: the calls made and the new [_curr].  The comparison
    and the assignment of the label come before [int(progress)] is
    evaluated, so they have happened when it raises. *)
Definition stdout_line (line : str) (curr : str) : list feedback_call * str :=
  match Py.split1 COLON (Py.strip line) with
  | Some (label, progress) =>
      let '(calls, curr') :=
        if negb (str_eqb label curr) then ([setProgressText label], label)
        else ([], curr) in
      match Py.int progress with
      | Some n => (calls ++ [setProgress n], curr')
      | None => (calls ++ [pushInfo line], curr')
      end
  | None => ([pushInfo line], curr)
  end.

Fixpoint stdout_loop (lines : list str) (curr : str) : list feedback_call * str :=
  match lines with
  | [] => ([], curr)
  | line :: rest =>
      let '(calls, curr') := stdout_line line curr in
      let '(calls', curr'') := stdout_loop rest curr' in
      (calls ++ calls', curr'')
  end.

(** The lines that one call of a handler iterates over, and the value of
    [_buffer] when it returns; the text is the same in both handlers.  When
    [lines] ends with a newline [_buffer] is not assigned.  [chunk] is the
    text that [bytes_array.data().decode("utf-8")] returns; bytes that do not
    decode raise there, before anything else happens. *)
Definition feed (buffer chunk : str) : list str * str :=
  let lines := buffer ++ chunk in
  if negb (Py.endswith NL lines) then
    match Py.rsplit1 NL lines with
    | Some (lines', buffer') => (Py.split NL (Py.strip lines'), buffer')
    | None => ([], lines)
    end
  else (Py.split NL (Py.strip lines), buffer).

Definition stdout_handlr (st : proc_state) (chunk : str)
  : list feedback_call * proc_state :=
  let lines := stdout_buffer st ++ chunk in
  if negb (Py.endswith NL lines) then
    match Py.rsplit1 NL lines with
    | Some (lines', buffer') =>
        let '(calls, curr') :=
          stdout_loop (Py.split NL (Py.strip lines')) (stdout_curr st) in
        (calls, {| stdout_buffer := buffer'; stdout_curr := curr';
                   stderr_buffer := stderr_buffer st |})
    | None =>
        ([], {| stdout_buffer := lines; stdout_curr := stdout_curr st;
                stderr_buffer := stderr_buffer st |})
    end
  else
    let '(calls, curr') :=
      stdout_loop (Py.split NL (Py.strip lines)) (stdout_curr st) in
    (calls, {| stdout_buffer := stdout_buffer st; stdout_curr := curr';
               stderr_buffer := stderr_buffer st |}).

Definition stderr_handlr (st : proc_state) (chunk : str)
  : list feedback_call * proc_state :=
  let lines := stderr_buffer st ++ chunk in
  if negb (Py.endswith NL lines) then
    match Py.rsplit1 NL lines with
    | Some (lines', buffer') =>
        (map pushWarning (Py.split NL (Py.strip lines')),
         {| stdout_buffer := stdout_buffer st; stdout_curr := stdout_curr st;
            stderr_buffer := buffer' |})
    | None =>
        ([], {| stdout_buffer := stdout_buffer st;
                stdout_curr := stdout_curr st; stderr_buffer := lines |})
    end
  else
    (map pushWarning (Py.split NL (Py.strip lines)), st).

(** What the process delivers: chunks on either stream.  The blocking
    process calls a handler for each chunk read and for nothing else; the
    end of a stream is no call. *)
Inductive stream : Type := Out | Err.

Definition handle (st : proc_state) (ev : stream * str)
  : list feedback_call * proc_state :=
  match ev with
  | (Out, chunk) => stdout_handlr st chunk
  | (Err, chunk) => stderr_handlr st chunk
  end.

Fixpoint run_from (st : proc_state) (evs : list (stream * str))
  : list feedback_call * proc_state :=
  match evs with
  | [] => ([], st)
  | ev :: rest =>
      let '(calls, st') := handle st ev in
      let '(calls', st'') := run_from st' rest in
      (calls ++ calls', st'')
  end.

(** A whole run: the state set up by [qgis_nadi_proc], then the chunks. *)
Definition run (evs : list (stream * str)) : list feedback_call * proc_state :=
  run_from initial_state evs.

Definition on (s : stream) (chunks : list str) : list (stream * str) :=
  map (fun c => (s, c)) chunks.

(** The four calls that [qgis_nadi_proc] makes before it returns the
    process: [nadi_bin] is the path found by [nadi_bin_path]. *)
Definition qgis_nadi_proc (nadi_bin : str) (cmd : list str) : list feedback_call :=
  [pushInfo "Running Nadi Command:";
   pushCommandInfo nadi_bin;
   pushCommandInfo (Py.join " "%char cmd);
   pushInfo "Output:"].

(** ** The command of [processAlgorithm]

    The argument that names a layer: the path alone when the layer name is
    empty, else the path, two colons and the name.  [as_posix] stands for
    [pathlib.Path(p).as_posix()]. *)
Definition layer_file (as_posix : str -> str) (source : str * str) : str :=
  if str_eqb (snd source) [] then as_posix (fst source)
  else as_posix (fst source) ++ of_string "::" ++ snd source.

(** ** The end of [processAlgorithm]

    [res] is what [proc.run(feedback)] returned, [canceled] is
    [feedback.isCanceled()]; the text is the same in both algorithms. *)
Module NadiOrder.
Definition processAlgorithm_status (canceled : bool) (res : Z)
  : list feedback_call :=
  if canceled then [pushInfo "Cancelled"]
  else if negb (res =? 0)%Z then [reportError "Error"]
  else [pushInfo "Completed"].

End NadiOrder.

Module NadiNetwork.
Definition processAlgorithm_status (canceled : bool) (res : Z)
  : list feedback_call :=
  if canceled then [pushInfo "Cancelled"]
  else if negb (res =? 0)%Z then [reportError "Error"]
  else [pushInfo "Completed"].

(** The list [cmd] handed to [qgis_nadi_proc].  [streams] and [points] are
    the pairs that [parameterAsCompatibleSourceLayerPathAndLayerName]
    returns; [output_param] and [snap_param] are the outcome of
    [parameters[key] != QgsProcessing.TEMPORARY_OUTPUT]: [None] when the
    lookup raises [KeyError], else the value of the comparison. *)
Definition processAlgorithm_cmd (as_posix : str -> str)
    (streams points : str * str) (reverse simplify : bool) (points_id : str)
    (connection snap_lines output : str)
    (output_param snap_param : option bool) : list str :=
  let cmd := texts ["network"; "--ignore-spatial-ref"; "--verbose"] in
  let cmd := if reverse then cmd ++ texts ["--reverse"] else cmd in
  let cmd := if simplify then cmd ++ texts ["--endpoints"] else cmd in
  let cmd :=
    match points_id with
    | _ :: _ => cmd ++ [of_string "--points-field"; points_id]
    | [] => cmd
    end in
  let cmd :=
    match output_param with
    | Some true => cmd ++ [of_string "--output"; output]
    | Some false => cmd
    | None => cmd
    end in
  let cmd :=
    match snap_param with
    | Some true => cmd ++ [of_string "--snap-line"; as_posix snap_lines]
    | Some false => cmd
    | None => cmd
    end in
  cmd ++ [layer_file as_posix points; layer_file as_posix streams;
          of_string "--network"; as_posix connection].
End NadiNetwork.

(** ** The reference of the specification

    The specification splits the whole text on newlines: every segment
    before the last newline is a complete line, what follows the last
    newline is the pending suffix, and the flush at the end of the stream
    emits the suffix when it is not empty. *)
Definition spec_lines (t : str) : list str := removelast (Py.split NL t).

Definition spec_pending (t : str) : str := last (Py.split NL t) [].

Definition spec_flush (pending : str) : list str :=
  match pending with
  | [] => []
  | _ :: _ => [pending]
  end.

Definition spec_demux (t : str) : list str :=
  spec_lines t ++ spec_flush (spec_pending t).

(** Lines put back together: each line with its newline, then the rest. *)
Definition reassemble (lines : list str) (rest : str) : str :=
  flat_map (fun l => l ++ [NL]) lines ++ rest.

(** The lines iterated over by a sequence of calls of one handler. *)
Fixpoint feed_all (buffer : str) (chunks : list str) : list str * str :=
  match chunks with
  | [] => ([], buffer)
  | c :: cs =>
      let '(ls, b) := feed buffer c in
      let '(ls', b') := feed_all b cs in
      (ls ++ ls', b')
  end.

(** A line that [strip] leaves alone and that is not blank: it starts and
    ends with a character that is not whitespace. *)
Definition starts_nonspace (s : str) : bool :=
  match s with
  | c :: _ => negb (Py.isspace c)
  | [] => false
  end.

Definition clean (s : str) : bool :=
  starts_nonspace s && starts_nonspace (rev s).

Definition all_clean (ls : list str) : Prop :=
  Forall (fun l => clean l = true) ls.

(** No call finds a newline at the end of its text while a partial line is
    stored: [pending] is the partial line at the start. *)
Fixpoint no_stale (pending : str) (chunks : list str) : bool :=
  match chunks with
  | [] => true
  | c :: cs =>
      (negb (Py.endswith NL (pending ++ c))
       || match pending with [] => true | _ :: _ => false end)
      && no_stale (spec_pending (pending ++ c)) cs
  end.

(** The same for every call but the last one of the sequence. *)
Fixpoint no_stale_before (pending : str) (chunks : list str) : bool :=
  match chunks with
  | [] => true
  | c :: cs =>
      match cs with
      | [] => true
      | _ :: _ =>
          (negb (Py.endswith NL (pending ++ c))
           || match pending with [] => true | _ :: _ => false end)
          && no_stale_before (spec_pending (pending ++ c)) cs
      end
  end.

(** The decimal numeral of a natural number, as the process prints it. *)
Definition decimal (n : nat) : str :=
  list_ascii_of_string (NilEmpty.string_of_uint (Nat.to_uint n)).

(** ** [LayerPostProcessor.postProcessLayer] of [nadi_order.py]

    [max_ord] is the first component of what [layer.aggregate] returns for
    the maximum of the field "order", an integer; [//] is the floor
    division. *)
Module LayerPostProcessor.

Definition breaks (max_ord : Z) : list Z :=
  map (fun b => (max_ord * b / 100)%Z) [0; 1; 2; 4; 12; 50]%Z.

(** The arguments of the calls of [rend.addClassLowerUpper], in order: five
    in the loop, and one after it, where [i] is still 5. *)
Definition classes (max_ord : Z) : list (Z * Z) :=
  map (fun i => (nth (i - 1) (breaks max_ord) 0%Z, nth i (breaks max_ord) 0%Z))
      (seq 1 5)
  ++ [(nth 5 (breaks max_ord) 0%Z, max_ord)].

End LayerPostProcessor.

(** ** Readings of a run *)

(** The chunks of one stream, in the order of arrival. *)
Definition same_stream (a b : stream) : bool :=
  match a, b with
  | Out, Out => true
  | Err, Err => true
  | _, _ => false
  end.

Fixpoint chunks_of (s : stream) (evs : list (stream * str)) : list str :=
  match evs with
  | [] => []
  | (s', chunk) :: rest =>
      if same_stream s s' then chunk :: chunks_of s rest else chunks_of s rest
  end.

Definition is_warning (call : feedback_call) : bool :=
  match call with
  | pushWarning _ => true
  | _ => false
  end.

(** The calls that close the treatment of a line of the output stream. *)
Definition is_line_call (call : feedback_call) : bool :=
  match call with
  | setProgress _ => true
  | pushInfo _ => true
  | _ => false
  end.

(** The text that a call carries, empty for a percentage. *)
Definition call_text (call : feedback_call) : str :=
  match call with
  | setProgressText label => label
  | setProgress _ => []
  | pushInfo text => text
  | pushWarning text => text
  | pushCommandInfo text => text
  | reportError text => text
  end.

(** The labels announced, in order. *)
Fixpoint announced (calls : list feedback_call) : list str :=
  match calls with
  | [] => []
  | setProgressText label :: rest => label :: announced rest
  | _ :: rest => announced rest
  end.

(** Each label differs from the one before it, [prev] before the first. *)
Fixpoint changes (prev : str) (labels : list str) : Prop :=
  match labels with
  | [] => True
  | l :: rest => l <> prev /\ changes l rest
  end.

(** Classes that follow one another from [start] to [stop]. *)
Fixpoint chained (start : Z) (cs : list (Z * Z)) (stop : Z) : Prop :=
  match cs with
  | [] => start = stop
  | (lo, hi) :: rest => lo = start /\ chained hi rest stop
  end.

Definition SPACE : ascii := " "%char.

(** ** The scenarios of the specification, evaluated *)

Example scenario_1 :
  fst (run (on Out (texts ["build:1"; "0\nbuil"; "d:25\ndone\n"])))
  = [setProgressText "build"; setProgress 10; setProgress 25; pushInfo "done"].
Proof. vm_compute. reflexivity. Qed.

Example scenario_1_state :
  snd (run (on Out (texts ["build:1"; "0\nbuil"; "d:25\ndone\n"])))
  = {| stdout_buffer := "buil"; stdout_curr := "build"; stderr_buffer := "" |}.
Proof. vm_compute. reflexivity. Qed.


(** ** Lemmas on text *)

Section Text.

Variable c : ascii.

Lemma split_not_nil (s : str) : Py.split c s <> [].
Proof.
  destruct s as [|d s]; simpl; [discriminate|].
  destruct (Ascii.eqb d c); [discriminate|].
  destruct (Py.split c s); discriminate.
Qed.

Lemma split_no_sep (s : str) : ~ In c s -> Py.split c s = [s].
Proof.
  induction s as [|d s IH]; simpl; intros H; [reflexivity|].
  destruct (Ascii.eqb_spec d c) as [->|Hd]; [tauto|].
  rewrite IH by tauto. reflexivity.
Qed.

Lemma split_app (a b : str) :
  Py.split c (a ++ c :: b) = Py.split c a ++ Py.split c b.
Proof.
  induction a as [|d a IH]; simpl.
  - rewrite Ascii.eqb_refl. reflexivity.
  - destruct (Ascii.eqb d c); [now rewrite IH|].
    rewrite IH. pose proof (split_not_nil a) as Hne.
    destruct (Py.split c a); [contradiction|reflexivity].
Qed.

Lemma split_segments (s : str) : Forall (fun l => ~ In c l) (Py.split c s).
Proof.
  induction s as [|d s IH]; simpl.
  - constructor; [tauto|constructor].
  - destruct (Ascii.eqb_spec d c) as [->|Hd].
    + constructor; [simpl; tauto|exact IH].
    + destruct (Py.split c s) as [|l ls]; [repeat constructor; simpl; intuition|].
      inversion IH; subst. constructor; [simpl; intuition|assumption].
Qed.

Lemma join_split (s : str) : Py.join c (Py.split c s) = s.
Proof.
  induction s as [|d s IH]; simpl; [reflexivity|].
  pose proof (split_not_nil s) as Hne.
  destruct (Ascii.eqb_spec d c) as [->|Hd].
  - destruct (Py.split c s) eqn:E; [contradiction|].
    simpl. f_equal. exact IH.
  - destruct (Py.split c s) as [|l ls] eqn:E; [contradiction|].
    destruct ls; simpl in *; now rewrite <- IH.
Qed.

Lemma join_snoc (ls : list str) (x : str) :
  ls <> [] -> Py.join c (ls ++ [x]) = Py.join c ls ++ c :: x.
Proof.
  induction ls as [|a ls IH]; [contradiction|]. intros _.
  destruct ls as [|b ls]; [reflexivity|].
  change (Py.join c ((a :: b :: ls) ++ [x]))
    with (a ++ c :: Py.join c ((b :: ls) ++ [x])).
  rewrite IH by discriminate.
  change (Py.join c (a :: b :: ls)) with (a ++ c :: Py.join c (b :: ls)).
  rewrite <- app_assoc. reflexivity.
Qed.

Lemma split1_none (s : str) : Py.split1 c s = None <-> ~ In c s.
Proof.
  induction s as [|d s IH]; simpl; [tauto|].
  destruct (Ascii.eqb_spec d c) as [->|Hd].
  - split; [discriminate|tauto].
  - destruct (Py.split1 c s) as [[a b]|].
    + split; [discriminate|]. intros H. exfalso. apply H. right.
      destruct (in_dec ascii_dec c s) as [Hi|Hn]; [exact Hi|].
      apply IH in Hn. discriminate.
    + split; [|reflexivity]. intros _ [H|H]; [congruence|].
      now apply (proj1 IH).
Qed.

Lemma split1_app (a b : str) :
  ~ In c a -> Py.split1 c (a ++ c :: b) = Some (a, b).
Proof.
  induction a as [|d a IH]; simpl; intros H.
  - now rewrite Ascii.eqb_refl.
  - destruct (Ascii.eqb_spec d c) as [->|Hd]; [tauto|].
    rewrite IH by tauto. reflexivity.
Qed.

Lemma rsplit1_none (s : str) : Py.rsplit1 c s = None -> ~ In c s.
Proof.
  induction s as [|d s IH]; simpl; [tauto|].
  destruct (Py.rsplit1 c s) as [[a b]|]; [discriminate|].
  destruct (Ascii.eqb_spec d c) as [->|Hd]; [discriminate|].
  intros _ [H|H]; [congruence|]. now apply IH.
Qed.

Lemma rsplit1_some (s a b : str) :
  Py.rsplit1 c s = Some (a, b) -> s = a ++ c :: b /\ ~ In c b.
Proof.
  revert a b. induction s as [|d s IH]; simpl; intros a b; [discriminate|].
  destruct (Py.rsplit1 c s) as [[a' b']|] eqn:E.
  - intros [= <- <-]. destruct (IH _ _ eq_refl) as [-> Hb].
    split; [reflexivity|exact Hb].
  - destruct (Ascii.eqb_spec d c) as [->|Hd]; [|discriminate].
    intros [= <- <-]. split; [reflexivity|now apply rsplit1_none].
Qed.

Lemma rsplit1_no_sep (s : str) : ~ In c s -> Py.rsplit1 c s = None.
Proof.
  intros H. destruct (Py.rsplit1 c s) as [[a b]|] eqn:E; [|reflexivity].
  apply rsplit1_some in E as [-> _]. exfalso. apply H.
  apply in_or_app. right. now left.
Qed.

Lemma endswith_snoc (s : str) (d : ascii) :
  Py.endswith c (s ++ [d]) = Ascii.eqb d c.
Proof. unfold Py.endswith. rewrite rev_app_distr. reflexivity. Qed.

Lemma endswith_true (s : str) :
  Py.endswith c s = true -> exists p, s = p ++ [c].
Proof.
  unfold Py.endswith. destruct (rev s) as [|d r] eqn:E; [discriminate|].
  intros H. apply Ascii.eqb_eq in H. subst d. exists (rev r).
  rewrite <- (rev_involutive s), E. reflexivity.
Qed.

Lemma endswith_no_sep (s : str) : ~ In c s -> Py.endswith c s = false.
Proof.
  intros H. destruct (Py.endswith c s) eqn:E; [|reflexivity].
  apply endswith_true in E as [p ->]. exfalso. apply H.
  apply in_or_app. right. now left.
Qed.

End Text.

(** *** [strip] on clean text *)

Lemma lstrip_starts (s : str) : starts_nonspace s = true -> Py.lstrip s = s.
Proof.
  destruct s as [|d s]; simpl; [reflexivity|].
  intros H. apply negb_true_iff in H. now rewrite H.
Qed.

Lemma rstrip_ends (s : str) :
  starts_nonspace (rev s) = true -> Py.rstrip s = s.
Proof.
  intros H. unfold Py.rstrip. rewrite lstrip_starts by exact H.
  apply rev_involutive.
Qed.

Lemma strip_clean (s : str) : clean s = true -> Py.strip s = s.
Proof.
  unfold clean, Py.strip. intros H. apply andb_true_iff in H as [H1 H2].
  rewrite lstrip_starts by exact H1. now apply rstrip_ends.
Qed.

Lemma isspace_NL : Py.isspace NL = true.
Proof. reflexivity. Qed.

Lemma strip_clean_nl (s : str) : clean s = true -> Py.strip (s ++ [NL]) = s.
Proof.
  unfold clean, Py.strip. intros H. apply andb_true_iff in H as [H1 H2].
  rewrite lstrip_starts by (destruct s; [discriminate|exact H1]).
  unfold Py.rstrip. rewrite rev_app_distr. simpl.
  rewrite lstrip_starts by exact H2. apply rev_involutive.
Qed.

Lemma starts_app (a b : str) :
  starts_nonspace a = true -> starts_nonspace (a ++ b) = true.
Proof. destruct a; [discriminate|trivial]. Qed.

(** A text whose first and last segments are clean is clean. *)
Lemma clean_join (ls : list str) :
  clean (hd [] ls) = true -> clean (last ls []) = true ->
  clean (Py.join NL ls) = true.
Proof.
  intros Hh Hl. unfold clean in *.
  apply andb_true_iff in Hh as [Hh _]. apply andb_true_iff in Hl as [_ Hl].
  apply andb_true_iff. split.
  - destruct ls as [|a ls]; [discriminate|]. simpl in Hh.
    destruct ls; [exact Hh|]. now apply starts_app.
  - destruct ls as [|a ls] using rev_ind; [discriminate|].
    rewrite last_last in Hl.
    destruct ls as [|b ls]; [exact Hl|].
    rewrite join_snoc by discriminate.
    rewrite rev_app_distr. simpl. rewrite <- app_assoc.
    now apply starts_app.
Qed.

Lemma Forall_hd_last (P : str -> Prop) (ls : list str) :
  ls <> [] -> Forall P ls -> P (hd [] ls) /\ P (last ls []).
Proof.
  intros Hne H. split.
  - destruct ls; [contradiction|]. now inversion H.
  - destruct ls as [|a ls] using rev_ind; [contradiction|].
    rewrite last_last. apply Forall_app in H as [_ H]. now inversion H.
Qed.

Lemma clean_lines (s : str) :
  Forall (fun l => clean l = true) (Py.split NL s) -> clean s = true.
Proof.
  intros H. rewrite <- (join_split NL s).
  destruct (Forall_hd_last _ _ (split_not_nil NL s) H) as [Hh Hl].
  now apply clean_join.
Qed.

(** *** The reference, along a newline *)

Lemma removelast_app_ne (A : Type) (l l' : list A) :
  l' <> [] -> removelast (l ++ l') = l ++ removelast l'.
Proof. intros H. now apply removelast_app. Qed.

Lemma last_app_ne (A : Type) (l l' : list A) (d : A) :
  l' <> [] -> last (l ++ l') d = last l' d.
Proof.
  intros H. induction l as [|a l IH]; [reflexivity|].
  simpl. destruct (l ++ l') eqn:E; [|exact IH].
  apply app_eq_nil in E as [_ ->]. contradiction.
Qed.

Lemma spec_lines_app (a b : str) :
  spec_lines (a ++ NL :: b) = Py.split NL a ++ spec_lines b.
Proof.
  unfold spec_lines. rewrite split_app.
  apply removelast_app_ne, split_not_nil.
Qed.

Lemma spec_pending_app (a b : str) :
  spec_pending (a ++ NL :: b) = spec_pending b.
Proof.
  unfold spec_pending. rewrite split_app.
  apply last_app_ne, split_not_nil.
Qed.

Lemma spec_lines_no_nl (s : str) : ~ In NL s -> spec_lines s = [].
Proof. intros H. unfold spec_lines. now rewrite split_no_sep. Qed.

Lemma spec_pending_no_nl (s : str) : ~ In NL s -> spec_pending s = s.
Proof. intros H. unfold spec_pending. now rewrite split_no_sep. Qed.

Lemma spec_pending_has_no_nl (s : str) : ~ In NL (spec_pending s).
Proof.
  unfold spec_pending.
  destruct (Forall_hd_last _ _ (split_not_nil NL s) (split_segments NL s))
    as [_ H].
  exact H.
Qed.

Lemma reassemble_split (s : str) :
  reassemble (spec_lines s) (spec_pending s) = s.
Proof.
  unfold reassemble, spec_lines, spec_pending.
  induction s as [|d s IH]; [reflexivity|].
  pose proof (split_not_nil NL s) as Hne. simpl Py.split.
  destruct (Ascii.eqb_spec d NL) as [->|Hd].
  - destruct (Py.split NL s) as [|l ls]; [contradiction|].
    change (removelast ([] :: l :: ls)) with ([] :: removelast (l :: ls)).
    change (last ([] :: l :: ls) []) with (last (l :: ls) (@nil ascii)).
    simpl flat_map. simpl. f_equal. exact IH.
  - destruct (Py.split NL s) as [|l ls]; [contradiction|].
    destruct ls as [|l' ls].
    + simpl in *. now rewrite IH.
    + change (removelast ((d :: l) :: l' :: ls))
        with ((d :: l) :: removelast (l' :: ls)).
      change (last ((d :: l) :: l' :: ls) [])
        with (last (l' :: ls) (@nil ascii)).
      change (removelast (l :: l' :: ls)) with (l :: removelast (l' :: ls)) in IH.
      change (last (l :: l' :: ls) []) with (last (l' :: ls) (@nil ascii)) in IH.
      simpl flat_map in *. simpl. f_equal.
      rewrite <- IH. now rewrite <- !app_assoc.
Qed.

(** ** The handlers and [feed] *)

Lemma stdout_loop_app (l1 l2 : list str) (curr : str) :
  stdout_loop (l1 ++ l2) curr =
  (fst (stdout_loop l1 curr)
     ++ fst (stdout_loop l2 (snd (stdout_loop l1 curr))),
   snd (stdout_loop l2 (snd (stdout_loop l1 curr)))).
Proof.
  revert curr. induction l1 as [|l l1 IH]; intros curr; simpl.
  - now destruct (stdout_loop l2 curr).
  - destruct (stdout_line l curr) as [calls curr'].
    rewrite IH. destruct (stdout_loop l1 curr') as [calls1 curr1]. simpl.
    destruct (stdout_loop l2 curr1) as [calls2 curr2]. simpl.
    now rewrite app_assoc.
Qed.

Lemma stdout_handlr_feed (st : proc_state) (chunk : str) :
  stdout_handlr st chunk =
  (fst (stdout_loop (fst (feed (stdout_buffer st) chunk)) (stdout_curr st)),
   {| stdout_buffer := snd (feed (stdout_buffer st) chunk);
      stdout_curr :=
        snd (stdout_loop (fst (feed (stdout_buffer st) chunk)) (stdout_curr st));
      stderr_buffer := stderr_buffer st |}).
Proof.
  unfold stdout_handlr, feed.
  destruct (negb (Py.endswith NL (stdout_buffer st ++ chunk))).
  - destruct (Py.rsplit1 NL (stdout_buffer st ++ chunk)) as [[a b]|]; simpl.
    + now destruct (stdout_loop (Py.split NL (Py.strip a)) (stdout_curr st)).
    + reflexivity.
  - simpl.
    now destruct (stdout_loop (Py.split NL (Py.strip (stdout_buffer st ++ chunk)))
                   (stdout_curr st)).
Qed.

Lemma stderr_handlr_feed (st : proc_state) (chunk : str) :
  stderr_handlr st chunk =
  (map pushWarning (fst (feed (stderr_buffer st) chunk)),
   {| stdout_buffer := stdout_buffer st;
      stdout_curr := stdout_curr st;
      stderr_buffer := snd (feed (stderr_buffer st) chunk) |}).
Proof.
  unfold stderr_handlr, feed.
  destruct (negb (Py.endswith NL (stderr_buffer st ++ chunk))).
  - now destruct (Py.rsplit1 NL (stderr_buffer st ++ chunk)) as [[a b]|].
  - simpl. now destruct st.
Qed.

Lemma run_from_err (chunks : list str) (st : proc_state) :
  run_from st (on Err chunks) =
  (map pushWarning (fst (feed_all (stderr_buffer st) chunks)),
   {| stdout_buffer := stdout_buffer st;
      stdout_curr := stdout_curr st;
      stderr_buffer := snd (feed_all (stderr_buffer st) chunks) |}).
Proof.
  revert st. induction chunks as [|c cs IH]; intros st; simpl.
  - now destruct st.
  - rewrite stderr_handlr_feed, IH. simpl.
    destruct (feed (stderr_buffer st) c) as [ls b]. simpl.
    destruct (feed_all b cs) as [ls' b']. simpl.
    now rewrite map_app.
Qed.

Lemma run_from_out (chunks : list str) (st : proc_state) :
  run_from st (on Out chunks) =
  (fst (stdout_loop (fst (feed_all (stdout_buffer st) chunks)) (stdout_curr st)),
   {| stdout_buffer := snd (feed_all (stdout_buffer st) chunks);
      stdout_curr :=
        snd (stdout_loop (fst (feed_all (stdout_buffer st) chunks))
               (stdout_curr st));
      stderr_buffer := stderr_buffer st |}).
Proof.
  revert st. induction chunks as [|c cs IH]; intros st; simpl.
  - now destruct st.
  - rewrite stdout_handlr_feed, IH. simpl.
    destruct (feed (stdout_buffer st) c) as [ls b]. simpl.
    destruct (feed_all b cs) as [ls' b']. simpl.
    now rewrite stdout_loop_app.
Qed.

(** ** Clean text, fed without a stale buffer *)

Lemma feed_all_clean (chunks : list str) :
  forall buffer : str,
    ~ In NL buffer ->
    no_stale buffer chunks = true ->
    all_clean (spec_lines (buffer ++ List.concat chunks)) ->
    feed_all buffer chunks =
    (spec_lines (buffer ++ List.concat chunks),
     spec_pending (buffer ++ List.concat chunks)).
Proof.
  induction chunks as [|c cs IH]; intros buffer Hb Hs Hc.
  - simpl. rewrite app_nil_r.
    now rewrite spec_lines_no_nl, spec_pending_no_nl.
  - simpl in Hs. apply andb_true_iff in Hs as [Hs1 Hs2].
    simpl List.concat in *. rewrite app_assoc in *.
    simpl feed_all. unfold feed.
    destruct (Py.endswith NL (buffer ++ c)) eqn:E; simpl negb; cbv iota.
    + destruct buffer as [|x buffer]; [|discriminate Hs1].
      simpl app in *. apply endswith_true in E as [p ->].
      rewrite <- app_assoc in *. simpl app in *.
      rewrite spec_pending_app in Hs2.
      rewrite spec_lines_app in Hc. rewrite spec_lines_app, spec_pending_app.
      apply Forall_app in Hc as [Hp Hr].
      rewrite strip_clean_nl by now apply clean_lines.
      rewrite (IH [] (fun H => H) Hs2 Hr). reflexivity.
    + destruct (Py.rsplit1 NL (buffer ++ c)) as [[a b]|] eqn:R.
      * apply rsplit1_some in R as [R Hnb]. rewrite R in *.
        rewrite <- app_assoc in *. simpl app in *.
        rewrite spec_pending_app, spec_pending_no_nl in Hs2 by exact Hnb.
        rewrite spec_lines_app in Hc. rewrite spec_lines_app, spec_pending_app.
        apply Forall_app in Hc as [Hp Hr].
        rewrite strip_clean by now apply clean_lines.
        rewrite (IH b Hnb Hs2 Hr). reflexivity.
      * apply rsplit1_none in R.
        rewrite spec_pending_no_nl in Hs2 by exact R.
        rewrite (IH (buffer ++ c) R Hs2 Hc). reflexivity.
Qed.

(** ** C1 *)

(** C1, as stated, fails: the text "a\n\nb\n" has the lines "a", "" and
    "b"; fed on the error stream in one chunk it gives the three warnings,
    fed as "a\n" then "\nb\n" it gives two, because each call strips the
    text it iterates over.  And of "a\nb" the line "b", which no newline
    ends, is never emitted, for want of a flush. *)
Lemma chunk_boundaries_change_lines :
  List.concat (texts ["a\n"; "\nb\n"]) = of_string "a\n\nb\n" /\
  fst (run (on Err (texts ["a\n"; "\nb\n"])))
    <> map pushWarning (spec_demux "a\n\nb\n") /\
  fst (run (on Err (texts ["a\n"; "\nb\n"])))
    <> fst (run (on Err (texts ["a\n\nb\n"]))) /\
  fst (run (on Err (texts ["a\nb"]))) <> map pushWarning (spec_demux "a\nb").
Proof. vm_compute. repeat split; discriminate. Qed.

(** C1, amended: for a text whose complete lines are clean (not blank, no
    whitespace at either end), cut into chunks so that no call finds a
    newline at the end of its text while a partial line is stored, the calls
    made on either stream are those of the complete lines of the whole text,
    whatever the chunk boundaries; the text after the last newline is left in
    the buffer and nothing emits it. *)
Theorem chunk_boundary_invariance (chunks : list str) :
  no_stale [] chunks = true ->
  all_clean (spec_lines (List.concat chunks)) ->
  run (on Err chunks) =
    (map pushWarning (spec_lines (List.concat chunks)),
     {| stdout_buffer := []; stdout_curr := [];
        stderr_buffer := spec_pending (List.concat chunks) |})
  /\ fst (run (on Out chunks)) =
       fst (stdout_loop (spec_lines (List.concat chunks)) [])
  /\ stdout_buffer (snd (run (on Out chunks))) = spec_pending (List.concat chunks).
Proof.
  intros Hs Hc. unfold run.
  rewrite run_from_err, run_from_out. simpl.
  rewrite (feed_all_clean chunks [] (fun H => H) Hs Hc). simpl.
  repeat split.
Qed.

Lemma chunk_boundary_invariance_witness :
  no_stale [] (texts ["build:1"; "0\nbui"; "ld:25\ndo"; "ne"]) = true
  /\ all_clean
       (spec_lines (List.concat (texts ["build:1"; "0\nbui"; "ld:25\ndo"; "ne"])))
  /\ run (on Err (texts ["build:1"; "0\nbui"; "ld:25\ndo"; "ne"])) =
       (map pushWarning (texts ["build:10"; "build:25"]),
        {| stdout_buffer := []; stdout_curr := []; stderr_buffer := "done" |})
  /\ fst (run (on Out (texts ["build:1"; "0\nbui"; "ld:25\ndo"; "ne"]))) =
       [setProgressText "build"; setProgress 10; setProgress 25]
  /\ stdout_buffer
       (snd (run (on Out (texts ["build:1"; "0\nbui"; "ld:25\ndo"; "ne"]))))
     = of_string "done".
Proof.
  assert (Hs : no_stale [] (texts ["build:1"; "0\nbui"; "ld:25\ndo"; "ne"]) = true)
    by (vm_compute; reflexivity).
  assert (Hc : all_clean
       (spec_lines (List.concat (texts ["build:1"; "0\nbui"; "ld:25\ndo"; "ne"]))))
    by (vm_compute; repeat constructor).
  split; [exact Hs|]. split; [exact Hc|].
  exact (chunk_boundary_invariance _ Hs Hc).
Defined.

(** ** C2 *)

(** C2 fails on the code: a call whose text ends with a newline never
    assigns [_buffer].  After "ab" and then "c\n" nothing follows the last
    newline, yet the buffer still holds "ab", and the next line "x" comes out
    as "abx".  Both handlers have the same text. *)
Theorem buffer_kept_after_newline :
  spec_pending (List.concat (texts ["ab"; "c\n"])) = [] /\
  stdout_buffer (snd (run (on Out (texts ["ab"; "c\n"])))) = of_string "ab" /\
  stderr_buffer (snd (run (on Err (texts ["ab"; "c\n"])))) = of_string "ab" /\
  fst (run (on Out (texts ["ab"; "c\n"; "x\n"])))
    = [pushInfo "abc"; pushInfo "abx"] /\
  fst (run (on Err (texts ["ab"; "c\n"; "x\n"])))
    = [pushWarning "abc"; pushWarning "abx"].
Proof. vm_compute. repeat split. Qed.

(** The half of the invariant that the code keeps: a call whose text does
    not end with a newline stores what follows the last newline. *)
Lemma buffer_after_partial (buffer chunk : str) :
  Py.endswith NL (buffer ++ chunk) = false ->
  snd (feed buffer chunk) = spec_pending (buffer ++ chunk).
Proof.
  intros E. unfold feed. rewrite E. simpl.
  destruct (Py.rsplit1 NL (buffer ++ chunk)) as [[a b]|] eqn:R; simpl.
  - apply rsplit1_some in R as [-> Hb].
    now rewrite spec_pending_app, spec_pending_no_nl.
  - apply rsplit1_none in R. now rewrite spec_pending_no_nl.
Qed.

(** ** C3 *)

(** C3, as stated, fails: the second scenario of the specification gives
    one warning, not two. *)
Lemma scenario_2_one_warning :
  fst (run (on Err (texts ["warn one\nwarn "; "two"])))
    <> [pushWarning "warn one"; pushWarning "warn two"].
Proof. vm_compute. discriminate. Qed.

(** C3, amended: nothing is called when a stream ends; a handler runs
    only on a chunk, and a chunk that leaves the text without a newline makes
    no call and is added to the buffer.  So the suffix after the last newline
    is never emitted: "warn one\nwarn " then "two" on the error stream give
    the warning "warn one" alone, and "warn two" stays in the buffer. *)
Theorem pending_suffix_stays (st : proc_state) (chunk : str) :
  (~ In NL (stderr_buffer st ++ chunk) ->
   stderr_handlr st chunk =
     ([], {| stdout_buffer := stdout_buffer st; stdout_curr := stdout_curr st;
             stderr_buffer := stderr_buffer st ++ chunk |}))
  /\ (~ In NL (stdout_buffer st ++ chunk) ->
      stdout_handlr st chunk =
        ([], {| stdout_buffer := stdout_buffer st ++ chunk;
                stdout_curr := stdout_curr st;
                stderr_buffer := stderr_buffer st |}))
  /\ run (on Err (texts ["warn one\nwarn "; "two"])) =
       ([pushWarning "warn one"],
        {| stdout_buffer := []; stdout_curr := [];
           stderr_buffer := "warn two" |}).
Proof.
  split; [|split].
  - intros H. unfold stderr_handlr.
    now rewrite endswith_no_sep, rsplit1_no_sep.
  - intros H. unfold stdout_handlr.
    now rewrite endswith_no_sep, rsplit1_no_sep.
  - vm_compute. reflexivity.
Qed.

Lemma pending_suffix_stays_witness :
  ~ In NL (of_string "warn " ++ of_string "two") /\
  stderr_handlr {| stdout_buffer := []; stdout_curr := [];
                   stderr_buffer := "warn " |} "two" =
    ([], {| stdout_buffer := []; stdout_curr := [];
            stderr_buffer := "warn two" |}) /\
  stdout_handlr {| stdout_buffer := "warn "; stdout_curr := [];
                   stderr_buffer := [] |} "two" =
    ([], {| stdout_buffer := "warn two"; stdout_curr := [];
            stderr_buffer := [] |}).
Proof.
  assert (H : ~ In NL (of_string "warn " ++ of_string "two")).
  { vm_compute. intros H. repeat (destruct H as [H|H]; [discriminate H|]).
    exact H. }
  split; [exact H|]. split.
  - exact (proj1 (pending_suffix_stays
             {| stdout_buffer := []; stdout_curr := [];
                stderr_buffer := "warn " |} "two") H).
  - exact (proj1 (proj2 (pending_suffix_stays
             {| stdout_buffer := "warn "; stdout_curr := [];
                stderr_buffer := [] |} "two")) H).
Defined.

(** ** C6 *)

(** C6, as stated, fails: of the chunk " a\n" the handler iterates over
    the one line "a" and stores nothing, so the leading blank is lost. *)
Lemma leading_blank_lost :
  fst (run (on Out (texts [" a\n"]))) = [pushInfo "a"] /\
  stdout_buffer (snd (run (on Out (texts [" a\n"])))) = [] /\
  reassemble (fst (feed_all [] (texts [" a\n"])))
             (snd (feed_all [] (texts [" a\n"])))
    <> List.concat (texts [" a\n"]).
Proof. vm_compute. repeat split. discriminate. Qed.

(** C6, amended: for a text whose complete lines are clean, cut into
    chunks so that no call finds a newline at the end of its text while a
    partial line is stored, the lines the handler iterates over, each
    followed by a newline, and then the content of the buffer (which is
    kept, not emitted) are the text that was fed, with nothing lost, merged
    or repeated. *)
Theorem no_loss_no_duplication (chunks : list str) :
  no_stale [] chunks = true ->
  all_clean (spec_lines (List.concat chunks)) ->
  reassemble (fst (feed_all [] chunks)) (snd (feed_all [] chunks))
    = List.concat chunks
  /\ fst (run (on Out chunks)) = fst (stdout_loop (fst (feed_all [] chunks)) [])
  /\ stdout_buffer (snd (run (on Out chunks))) = snd (feed_all [] chunks)
  /\ fst (run (on Err chunks)) = map pushWarning (fst (feed_all [] chunks))
  /\ stderr_buffer (snd (run (on Err chunks))) = snd (feed_all [] chunks).
Proof.
  intros Hs Hc. unfold run. rewrite run_from_out, run_from_err. simpl.
  rewrite (feed_all_clean chunks [] (fun H => H) Hs Hc). simpl.
  rewrite reassemble_split. repeat split.
Qed.

Lemma no_loss_no_duplication_witness :
  no_stale [] (texts ["x:1\n"; "y"; " z\nw"]) = true /\
  all_clean (spec_lines (List.concat (texts ["x:1\n"; "y"; " z\nw"]))) /\
  reassemble (fst (feed_all [] (texts ["x:1\n"; "y"; " z\nw"])))
             (snd (feed_all [] (texts ["x:1\n"; "y"; " z\nw"])))
    = of_string "x:1\ny z\nw".
Proof.
  assert (Hs : no_stale [] (texts ["x:1\n"; "y"; " z\nw"]) = true).
  { vm_compute. reflexivity. }
  assert (Hc : all_clean (spec_lines (List.concat (texts ["x:1\n"; "y"; " z\nw"])))).
  { vm_compute. repeat constructor. }
  split; [exact Hs|]. split; [exact Hc|].
  exact (proj1 (no_loss_no_duplication _ Hs Hc)).
Defined.

(** ** The classification of one line *)

Lemma str_eqb_eq (a b : str) : str_eqb a b = true <-> a = b.
Proof.
  unfold str_eqb. destruct (list_eq_dec ascii_dec a b); split; congruence.
Qed.

Lemma lstrip_length (s : str) : (List.length (Py.lstrip s) <= List.length s)%nat.
Proof.
  induction s as [|d s IH]; simpl; [lia|].
  destruct (Py.isspace d); simpl; lia.
Qed.

Lemma lstrip_fixed (s : str) (rest : str) :
  Py.lstrip s = s -> starts_nonspace (s ++ COLON :: rest) = true.
Proof.
  destruct s as [|d s]; [reflexivity|]. simpl.
  destruct (Py.isspace d); [|reflexivity].
  intros H. pose proof (lstrip_length s) as Hl. rewrite H in Hl.
  simpl in Hl. lia.
Qed.

Lemma decimal_table :
  forallb
    (fun p =>
       starts_nonspace (rev (decimal p))
       && match Py.int (decimal p) with
          | Some n => (n =? Z.of_nat p)%Z
          | None => false
          end)
    (seq 0 101) = true.
Proof. vm_compute. reflexivity. Qed.

Lemma decimal_percent (p : nat) :
  (p <= 100)%nat ->
  starts_nonspace (rev (decimal p)) = true
  /\ Py.int (decimal p) = Some (Z.of_nat p).
Proof.
  intros Hp. pose proof decimal_table as H.
  rewrite forallb_forall in H. specialize (H p).
  assert (Hin : In p (seq 0 101)) by (apply in_seq; lia).
  apply H in Hin. apply andb_true_iff in Hin as [H1 H2]. split; [exact H1|].
  destruct (Py.int (decimal p)) as [n|]; [|discriminate].
  apply Z.eqb_eq in H2. now subst.
Qed.

Lemma stdout_line_colon (line curr label rest : str) :
  Py.split1 COLON (Py.strip line) = Some (label, rest) ->
  stdout_line line curr =
  ((if str_eqb label curr then [] else [setProgressText label])
     ++ [match Py.int rest with
         | Some n => setProgress n
         | None => pushInfo line
         end],
   label).
Proof.
  intros H. unfold stdout_line. rewrite H.
  destruct (str_eqb label curr) eqn:E; simpl.
  - apply str_eqb_eq in E. subst. now destruct (Py.int rest).
  - now destruct (Py.int rest).
Qed.

Lemma stdout_line_no_colon (line curr : str) :
  Py.split1 COLON (Py.strip line) = None ->
  stdout_line line curr = ([pushInfo line], curr).
Proof. intros H. unfold stdout_line. now rewrite H. Qed.

(** ** C4 *)

(** C4, as stated, fails on both halves: "build:250" has no percent
    between 0 and 100 and is progress all the same, and the label of
    " a:5" is announced without its leading blank. *)
Lemma progress_shape_not_exact :
  stdout_line "build:250" "" =
    ([setProgressText "build"; setProgress 250], of_string "build")
  /\ fst (stdout_line "build:250" "") <> [pushInfo "build:250"]
  /\ stdout_line " a:5" "" = ([setProgressText "a"; setProgress 5], of_string "a")
  /\ fst (stdout_line " a:5" "") <> [setProgressText " a"; setProgress 5].
Proof. vm_compute. repeat split; discriminate. Qed.

(** C4, amended: for a label [L] without colon and without leading
    whitespace, and [P] from 0 to 100, the line "L:P" sets the progress to
    [P], after announcing [L] when it differs from the current label, and
    [L] becomes the current label.  In general the line is stripped, cut at
    its first colon, and what follows is read by [int]: when that gives an
    integer, negative or above 100 included, the line is progress; when
    there is no colon the line is only pushed as information and the current
    label is kept; when there is a colon and [int] raises, as it does on a
    text that is no numeral and on a numeral of more than 4300 digits, the
    last call pushes the line as information and the progress is not set. *)
Theorem progress_classification (L : str) (P : nat) (line curr : str) :
  (~ In COLON L -> Py.lstrip L = L -> (P <= 100)%nat ->
   stdout_line (L ++ COLON :: decimal P) curr =
     ((if str_eqb L curr then [] else [setProgressText L])
        ++ [setProgress (Z.of_nat P)], L))
  /\ (forall label rest n,
        Py.split1 COLON (Py.strip line) = Some (label, rest) ->
        Py.int rest = Some n ->
        stdout_line line curr =
          ((if str_eqb label curr then [] else [setProgressText label])
             ++ [setProgress n], label))
  /\ (Py.split1 COLON (Py.strip line) = None ->
      stdout_line line curr = ([pushInfo line], curr))
  /\ (forall label rest,
        Py.split1 COLON (Py.strip line) = Some (label, rest) ->
        Py.int rest = None ->
        last (fst (stdout_line line curr)) (pushInfo []) = pushInfo line
        /\ forall n, ~ In (setProgress n) (fst (stdout_line line curr))).
Proof.
  repeat split.
  - intros HL Hs HP. destruct (decimal_percent P HP) as [Hd Hi].
    assert (Hc : clean (L ++ COLON :: decimal P) = true).
    { unfold clean. apply andb_true_iff. split; [now apply lstrip_fixed|].
      rewrite rev_app_distr. simpl. rewrite <- app_assoc.
      now apply starts_app. }
    rewrite (stdout_line_colon _ curr L (decimal P)).
    + now rewrite Hi.
    + rewrite strip_clean by exact Hc. now apply split1_app.
  - intros label rest n Hs Hi.
    rewrite (stdout_line_colon _ curr label rest Hs). now rewrite Hi.
  - apply stdout_line_no_colon.
  - rewrite (stdout_line_colon _ curr label rest H), H0. simpl.
    now rewrite last_last.
  - rewrite (stdout_line_colon _ curr label rest H), H0. simpl.
    intros n Hin. apply in_app_or in Hin as [Hin|[Hin|[]]]; [|discriminate].
    destruct (str_eqb label curr); [contradiction|].
    destruct Hin as [Hin|[]]. discriminate.
Qed.

Lemma progress_classification_witness :
  ~ In COLON (of_string "build") /\
  Py.lstrip "build" = of_string "build" /\
  (42 <= 100)%nat /\
  stdout_line "build:42" "load" =
    ([setProgressText "build"; setProgress 42], of_string "build") /\
  stdout_line "load: +0_7 " "load" = ([setProgress 7], of_string "load") /\
  stdout_line "done" "load" = ([pushInfo "done"], of_string "load") /\
  last (fst (stdout_line "load: half" "load")) (pushInfo []) =
    pushInfo "load: half".
Proof.
  assert (H1 : ~ In COLON (of_string "build")).
  { vm_compute. intros H. repeat (destruct H as [H|H]; [discriminate H|]).
    exact H. }
  assert (H2 : Py.lstrip "build" = of_string "build") by reflexivity.
  assert (H3 : (42 <= 100)%nat) by lia.
  split; [exact H1|]. split; [exact H2|]. split; [exact H3|].
  split; [|split; [|split]].
  - exact (proj1 (progress_classification "build" 42 "" "load") H1 H2 H3).
  - exact (proj1 (proj2 (progress_classification [] 0 "load: +0_7 " "load"))
             "load" " +0_7" 7%Z eq_refl eq_refl).
  - exact (proj1 (proj2 (proj2 (progress_classification [] 0 "done" "load")))
             eq_refl).
  - exact (proj1 (proj2 (proj2 (proj2
             (progress_classification [] 0 "load: half" "load")))
             "load" " half" eq_refl eq_refl)).
Defined.

(** ** C5 *)

(** C5 fails on the code: the label is compared, announced and stored
    before [int(progress)] is evaluated, so the line "note: hello", whose
    rest is no integer, announces the phase "note" and makes it the current
    label before it is pushed as information. *)
Theorem label_announced_before_parse :
  Py.int " hello" = None /\
  stdout_line "note: hello" "" =
    ([setProgressText "note"; pushInfo "note: hello"], of_string "note").
Proof. vm_compute. split; reflexivity. Qed.

(** ** C7 *)

(** C7: each algorithm ends with exactly one report: "Cancelled" when
    the feedback is cancelled, otherwise the error when the process returned
    a code other than 0, and "Completed" when it returned 0. *)
Theorem terminal_status (canceled : bool) (res : Z) :
  (canceled = true ->
   NadiOrder.processAlgorithm_status canceled res = [pushInfo "Cancelled"]
   /\ NadiNetwork.processAlgorithm_status canceled res = [pushInfo "Cancelled"])
  /\ (canceled = false -> res <> 0%Z ->
      NadiOrder.processAlgorithm_status canceled res = [reportError "Error"]
      /\ NadiNetwork.processAlgorithm_status canceled res = [reportError "Error"])
  /\ (canceled = false -> res = 0%Z ->
      NadiOrder.processAlgorithm_status canceled res = [pushInfo "Completed"]
      /\ NadiNetwork.processAlgorithm_status canceled res = [pushInfo "Completed"])
  /\ List.length (NadiOrder.processAlgorithm_status canceled res) = 1%nat
  /\ List.length (NadiNetwork.processAlgorithm_status canceled res) = 1%nat.
Proof.
  unfold NadiOrder.processAlgorithm_status, NadiNetwork.processAlgorithm_status.
  repeat split; intros; subst; try reflexivity.
  - apply Z.eqb_neq in H0. now rewrite H0.
  - apply Z.eqb_neq in H0. now rewrite H0.
  - destruct canceled; [reflexivity|]. now destruct (res =? 0)%Z.
  - destruct canceled; [reflexivity|]. now destruct (res =? 0)%Z.
Qed.

Lemma terminal_status_witness :
  NadiOrder.processAlgorithm_status true 0 = [pushInfo "Cancelled"] /\
  NadiOrder.processAlgorithm_status false 2 = [reportError "Error"] /\
  NadiNetwork.processAlgorithm_status false 0 = [pushInfo "Completed"].
Proof.
  split; [|split].
  - exact (proj1 (proj1 (terminal_status true 0) eq_refl)).
  - refine (proj1 (proj1 (proj2 (terminal_status false 2)) eq_refl _)).
    discriminate.
  - exact (proj2 (proj1 (proj2 (proj2 (terminal_status false 0)))
                    eq_refl eq_refl)).
Defined.

(** ** C9 *)

Lemma split_join (c : ascii) (ls : list str) :
  ls <> [] -> Forall (fun l => ~ In c l) ls ->
  Py.split c (Py.join c ls) = ls.
Proof.
  induction ls as [|a ls IH]; [contradiction|]. intros _ H.
  inversion H as [|? ? Ha Hls]; subst.
  destruct ls as [|b ls]; [now apply split_no_sep|].
  change (Py.join c (a :: b :: ls)) with (a ++ c :: Py.join c (b :: ls)).
  rewrite split_app, split_no_sep by exact Ha.
  rewrite IH by (discriminate || exact Hls). reflexivity.
Qed.

(** C9, as stated, fails: the text "\n\na\n" has two empty segments
    before "a", and the call strips them away with the rest of the leading
    whitespace; so it does at the end of "a\n\n\n". *)
Lemma outer_empty_lines_dropped :
  spec_lines "\n\na\n" = texts [""; ""; "a"] /\
  fst (run (on Out (texts ["\n\na\n"]))) = [pushInfo "a"] /\
  fst (run (on Out (texts ["\n\na\n"])))
    <> fst (stdout_loop (spec_lines "\n\na\n") []) /\
  fst (run (on Out (texts ["a\n\n\n"]))) = [pushInfo "a"].
Proof. vm_compute. repeat split. discriminate. Qed.

(** C9, amended: when the text of a call ends with a newline and its
    first and last lines are clean, every line between them is iterated
    over, in order, the empty ones as empty strings, whatever part of that
    text came from the buffer; and an empty line on the output stream is
    pushed as information with the empty text, the current label unchanged.
    Empty lines at the start or at the end of the text of a call are
    stripped with the surrounding whitespace. *)
Theorem inner_empty_lines_kept (ls : list str) (curr : str)
    (st : proc_state) (chunk : str) :
  Forall (fun l => ~ In NL l) ls ->
  clean (hd [] ls) = true ->
  clean (last ls []) = true ->
  feed [] (Py.join NL ls ++ [NL]) = (ls, [])
  /\ fst (stdout_handlr
            {| stdout_buffer := []; stdout_curr := curr; stderr_buffer := [] |}
            (Py.join NL ls ++ [NL]))
     = fst (stdout_loop ls curr)
  /\ stdout_line [] curr = ([pushInfo []], curr)
  /\ (stdout_buffer st ++ chunk = Py.join NL ls ++ [NL] ->
      fst (feed (stdout_buffer st) chunk) = ls
      /\ fst (stdout_handlr st chunk) = fst (stdout_loop ls (stdout_curr st))).
Proof.
  intros Hn Hh Hl.
  assert (Hne : ls <> []) by (destruct ls; [discriminate Hh|discriminate]).
  assert (Hg : forall buffer text,
             buffer ++ text = Py.join NL ls ++ [NL] ->
             fst (feed buffer text) = ls).
  { intros buffer text E. unfold feed. rewrite E, endswith_snoc.
    unfold NL at 1. rewrite Ascii.eqb_refl. simpl.
    rewrite strip_clean_nl by now apply clean_join.
    now rewrite split_join. }
  assert (Hf : feed [] (Py.join NL ls ++ [NL]) = (ls, [])).
  { pose proof (Hg [] (Py.join NL ls ++ [NL]) eq_refl) as E.
    unfold feed in *. simpl app in *. rewrite endswith_snoc in *.
    unfold NL at 1. unfold NL at 1 in E. rewrite Ascii.eqb_refl in *.
    simpl in *. now rewrite E. }
  split; [exact Hf|]. split; [|split; [reflexivity|]].
  - rewrite stdout_handlr_feed. simpl. now rewrite Hf.
  - intros E. split; [now apply Hg|].
    rewrite stdout_handlr_feed. simpl. now rewrite (Hg _ _ E).
Qed.

Lemma inner_empty_lines_kept_witness :
  Forall (fun l => ~ In NL l) (texts ["a"; ""; ""; "b:5"]) /\
  feed [] "a\n\n\nb:5\n" = (texts ["a"; ""; ""; "b:5"], []) /\
  fst (stdout_handlr initial_state "a\n\n\nb:5\n") =
    [pushInfo "a"; pushInfo ""; pushInfo ""; setProgressText "b"; setProgress 5] /\
  fst (stdout_handlr {| stdout_buffer := "a"; stdout_curr := "b";
                        stderr_buffer := [] |} "\n\n\nb:5\n") =
    [pushInfo "a"; pushInfo ""; pushInfo ""; setProgress 5].
Proof.
  assert (Hn : Forall (fun l => ~ In NL l) (texts ["a"; ""; ""; "b:5"])).
  { vm_compute. repeat constructor; intros H;
      repeat (destruct H as [H|H]; [discriminate H|]); exact H. }
  split; [exact Hn|].
  destruct (inner_empty_lines_kept (texts ["a"; ""; ""; "b:5"]) []
              {| stdout_buffer := "a"; stdout_curr := "b";
                 stderr_buffer := [] |} "\n\n\nb:5\n" Hn
              eq_refl eq_refl) as [H1 [H2 [_ H4]]].
  split; [exact H1|]. split; [exact H2|].
  exact (proj2 (H4 eq_refl)).
Defined.

(** ** C10 *)

(** At the start of a run the current label is empty, and a line cut at
    a colon announces its label exactly when the label is not empty. *)
Lemma first_line_announcement (line label rest : str) :
  Py.split1 COLON (Py.strip line) = Some (label, rest) ->
  (In (setProgressText label) (fst (stdout_line line (stdout_curr initial_state)))
   <-> label <> []).
Proof.
  intros H. rewrite (stdout_line_colon _ _ label rest H). simpl.
  destruct label as [|d label]; simpl.
  - split; [|congruence]. intros [Hin|[]]. now destruct (Py.int rest).
  - split; [discriminate|]. intros _. now left.
Qed.

(** C10 fails on the code, by the defect of C5: in the run
    "note: hi\nnote:5\n" the first line in the shape of a progress line is
    "note:5", its label is not empty, and it announces no phase: the line
    before it, which is no progress line, has already announced "note" and
    made it the current label.  The line ":50" at the start of a run sets
    the progress alone. *)
Theorem first_progress_line_not_announced :
  fst (run (on Out (texts ["note: hi\nnote:5\n"]))) =
    [setProgressText "note"; pushInfo "note: hi"; setProgress 5]
  /\ stdout_line "note: hi" (stdout_curr initial_state) =
       ([setProgressText "note"; pushInfo "note: hi"], of_string "note")
  /\ stdout_line "note:5" "note" = ([setProgress 5], of_string "note")
  /\ stdout_line ":50" (stdout_curr initial_state) = ([setProgress 50], []).
Proof. vm_compute. repeat split. Qed.

(** ** Further properties of the handlers *)

Lemma feed_buffer_no_nl (buffer chunk : str) :
  ~ In NL buffer -> ~ In NL (snd (feed buffer chunk)).
Proof.
  intros Hb. unfold feed.
  destruct (negb (Py.endswith NL (buffer ++ chunk))); [|exact Hb].
  destruct (Py.rsplit1 NL (buffer ++ chunk)) as [[a b]|] eqn:R; simpl.
  - now apply rsplit1_some in R as [_ R].
  - now apply rsplit1_none.
Qed.

Lemma run_from_app (evs1 evs2 : list (stream * str)) (st : proc_state) :
  run_from st (evs1 ++ evs2) =
  (fst (run_from st evs1) ++ fst (run_from (snd (run_from st evs1)) evs2),
   snd (run_from (snd (run_from st evs1)) evs2)).
Proof.
  revert st. induction evs1 as [|ev evs1 IH]; intros st; simpl.
  - now destruct (run_from st evs2).
  - destruct (handle st ev) as [calls st']. rewrite IH.
    destruct (run_from st' evs1) as [calls1 st1]. simpl.
    destruct (run_from st1 evs2) as [calls2 st2]. simpl.
    now rewrite app_assoc.
Qed.

Lemma run_from_buffers (evs : list (stream * str)) (st : proc_state) :
  ~ In NL (stdout_buffer st) -> ~ In NL (stderr_buffer st) ->
  ~ In NL (stdout_buffer (snd (run_from st evs)))
  /\ ~ In NL (stderr_buffer (snd (run_from st evs))).
Proof.
  revert st. induction evs as [|[s chunk] evs IH]; intros st Ho He; simpl.
  - now split.
  - destruct s; simpl.
    + rewrite stdout_handlr_feed.
      match goal with |- context [run_from ?st' evs] =>
        specialize (IH st') end.
      simpl in IH. destruct (run_from _ evs) as [calls' st'']. simpl in *.
      apply IH; [now apply feed_buffer_no_nl|exact He].
    + rewrite stderr_handlr_feed.
      match goal with |- context [run_from ?st' evs] =>
        specialize (IH st') end.
      simpl in IH. destruct (run_from _ evs) as [calls' st'']. simpl in *.
      apply IH; [exact Ho|now apply feed_buffer_no_nl].
Qed.

(** X1: whatever the chunks and their order on the two streams, neither
    buffer ever holds a newline. *)
Theorem buffers_hold_no_newline (evs : list (stream * str)) :
  ~ In NL (stdout_buffer (snd (run evs)))
  /\ ~ In NL (stderr_buffer (snd (run evs))).
Proof. apply run_from_buffers; simpl; tauto. Qed.

Lemma handle_empty_chunk (st : proc_state) (s : stream) :
  ~ In NL (stdout_buffer st) -> ~ In NL (stderr_buffer st) ->
  handle st (s, []) = ([], st).
Proof.
  intros Ho He. destruct st as [ob oc eb]. simpl in *.
  destruct s; simpl.
  - unfold stdout_handlr. simpl. rewrite app_nil_r.
    now rewrite endswith_no_sep, rsplit1_no_sep.
  - unfold stderr_handlr. simpl. rewrite app_nil_r.
    now rewrite endswith_no_sep, rsplit1_no_sep.
Qed.

Lemma run_from_one (st : proc_state) (ev : stream * str) :
  run_from st [ev] = handle st ev.
Proof.
  unfold run_from. destruct (handle st ev) as [calls st'].
  now rewrite app_nil_r.
Qed.

(** X2: at any point of any run, an empty chunk on either stream makes
    no call and changes nothing. *)
Theorem empty_chunk_is_no_op (evs : list (stream * str)) (s : stream) :
  run (evs ++ [(s, [])]) = run evs.
Proof.
  unfold run. rewrite run_from_app, run_from_one.
  destruct (run_from_buffers evs initial_state) as [Ho He]; [simpl; tauto..|].
  rewrite handle_empty_chunk by assumption. simpl.
  rewrite app_nil_r. now destruct (run_from initial_state evs).
Qed.

(** *** The two streams do not interfere *)

Lemma stdout_line_no_warning (line curr : str) :
  filter is_warning (fst (stdout_line line curr)) = [].
Proof.
  unfold stdout_line.
  destruct (Py.split1 COLON (Py.strip line)) as [[label rest]|]; [|reflexivity].
  destruct (negb (str_eqb label curr)); destruct (Py.int rest); reflexivity.
Qed.

Lemma stdout_loop_no_warning (lines : list str) (curr : str) :
  filter is_warning (fst (stdout_loop lines curr)) = [].
Proof.
  revert curr. induction lines as [|l lines IH]; intros curr; simpl;
    [reflexivity|].
  pose proof (stdout_line_no_warning l curr) as Hl.
  destruct (stdout_line l curr) as [calls curr']. specialize (IH curr').
  destruct (stdout_loop lines curr') as [calls' curr'']. simpl in *.
  now rewrite filter_app, Hl, IH.
Qed.

Lemma stdout_loop_all_kept (lines : list str) (curr : str) :
  filter (fun call => negb (is_warning call)) (fst (stdout_loop lines curr))
  = fst (stdout_loop lines curr).
Proof.
  apply forallb_filter_id. apply forallb_forall. intros call Hin.
  destruct (is_warning call) eqn:E; [|reflexivity].
  assert (Hf : In call (filter is_warning (fst (stdout_loop lines curr))))
    by (apply filter_In; now split).
  rewrite stdout_loop_no_warning in Hf. contradiction.
Qed.

Lemma warnings_all_kept (lines : list str) :
  filter is_warning (map pushWarning lines) = map pushWarning lines.
Proof. induction lines; simpl; congruence. Qed.

Lemma warnings_none_kept (lines : list str) :
  filter (fun call => negb (is_warning call)) (map pushWarning lines) = [].
Proof. induction lines; simpl; congruence. Qed.

Lemma run_from_streams (evs : list (stream * str)) (st : proc_state) :
  snd (run_from st evs) =
    {| stdout_buffer := stdout_buffer (snd (run_from st (on Out (chunks_of Out evs))));
       stdout_curr := stdout_curr (snd (run_from st (on Out (chunks_of Out evs))));
       stderr_buffer := stderr_buffer (snd (run_from st (on Err (chunks_of Err evs)))) |}
  /\ filter is_warning (fst (run_from st evs))
     = fst (run_from st (on Err (chunks_of Err evs)))
  /\ filter (fun call => negb (is_warning call)) (fst (run_from st evs))
     = fst (run_from st (on Out (chunks_of Out evs))).
Proof.
  revert st. induction evs as [|[s chunk] evs IH]; intros st.
  - simpl. now destruct st.
  - destruct s.
    + change (chunks_of Out ((Out, chunk) :: evs))
        with (chunk :: chunks_of Out evs).
      change (chunks_of Err ((Out, chunk) :: evs)) with (chunks_of Err evs).
      change (on Out (chunk :: chunks_of Out evs))
        with ((Out, chunk) :: on Out (chunks_of Out evs)).
      simpl run_from. unfold handle. rewrite stdout_handlr_feed.
      match goal with |- context [run_from ?st' evs] =>
        destruct (IH st') as [H1 [H2 H3]]; set (st1 := st') in * end.
      destruct (run_from st1 evs) as [calls' st2].
      destruct (run_from st1 (on Out (chunks_of Out evs))) as [co sto].
      simpl in *. rewrite !filter_app, H2, H3.
      rewrite stdout_loop_no_warning, stdout_loop_all_kept. simpl.
      rewrite !run_from_err in *. simpl in *. repeat split. exact H1.
    + change (chunks_of Err ((Err, chunk) :: evs))
        with (chunk :: chunks_of Err evs).
      change (chunks_of Out ((Err, chunk) :: evs)) with (chunks_of Out evs).
      change (on Err (chunk :: chunks_of Err evs))
        with ((Err, chunk) :: on Err (chunks_of Err evs)).
      simpl run_from. unfold handle. rewrite stderr_handlr_feed.
      match goal with |- context [run_from ?st' evs] =>
        destruct (IH st') as [H1 [H2 H3]]; set (st1 := st') in * end.
      destruct (run_from st1 evs) as [calls' st2].
      destruct (run_from st1 (on Err (chunks_of Err evs))) as [ce ste].
      simpl in *. rewrite !filter_app, H2, H3.
      rewrite warnings_all_kept, warnings_none_kept. simpl.
      rewrite !run_from_out in *. simpl in *. repeat split. exact H1.
Qed.

(** X3: however the chunks of the two streams are interleaved, the
    warnings of the run are those of the chunks of the error stream fed
    alone, the other calls are those of the chunks of the output stream fed
    alone, and so is the state each handler is left in. *)
Theorem streams_are_independent (evs : list (stream * str)) :
  snd (run evs) =
    {| stdout_buffer := stdout_buffer (snd (run (on Out (chunks_of Out evs))));
       stdout_curr := stdout_curr (snd (run (on Out (chunks_of Out evs))));
       stderr_buffer := stderr_buffer (snd (run (on Err (chunks_of Err evs)))) |}
  /\ filter is_warning (fst (run evs)) = fst (run (on Err (chunks_of Err evs)))
  /\ filter (fun call => negb (is_warning call)) (fst (run evs))
     = fst (run (on Out (chunks_of Out evs))).
Proof. apply run_from_streams. Qed.

(** *** The announcements of phases *)

Lemma announced_app (a b : list feedback_call) :
  announced (a ++ b) = announced a ++ announced b.
Proof.
  induction a as [|call a IH]; [reflexivity|].
  destruct call; simpl; now rewrite IH.
Qed.

Lemma last_cons_default (A : Type) (x : A) (a : list A) (d : A) :
  last (x :: a) d = last a x.
Proof.
  revert x d. induction a as [|y a IH]; intros x d; [reflexivity|].
  change (last (x :: y :: a) d) with (last (y :: a) d).
  now rewrite !IH.
Qed.

Lemma last_app_default (A : Type) (a b : list A) (d : A) :
  last (a ++ b) d = last b (last a d).
Proof.
  revert d. induction a as [|x a IH]; intros d; [reflexivity|].
  rewrite <- app_comm_cons, !last_cons_default. apply IH.
Qed.

Lemma changes_app (prev : str) (a b : list str) :
  changes prev a -> changes (last a prev) b -> changes prev (a ++ b).
Proof.
  revert prev. induction a as [|l a IH]; intros prev Ha Hb; [exact Hb|].
  destruct Ha as [Hl Ha]. split; [exact Hl|]. apply IH; [exact Ha|].
  now rewrite last_cons_default in Hb.
Qed.

Lemma stdout_line_announced (line curr : str) :
  changes curr (announced (fst (stdout_line line curr)))
  /\ snd (stdout_line line curr)
     = last (announced (fst (stdout_line line curr))) curr.
Proof.
  unfold stdout_line.
  destruct (Py.split1 COLON (Py.strip line)) as [[label rest]|];
    [|simpl; tauto].
  destruct (str_eqb label curr) eqn:E; simpl.
  - destruct (Py.int rest); simpl; tauto.
  - assert (Hne : label <> curr).
    { intros ->. rewrite (proj2 (str_eqb_eq curr curr) eq_refl) in E.
      discriminate. }
    destruct (Py.int rest); simpl; tauto.
Qed.

Lemma stdout_loop_announced (lines : list str) (curr : str) :
  changes curr (announced (fst (stdout_loop lines curr)))
  /\ snd (stdout_loop lines curr)
     = last (announced (fst (stdout_loop lines curr))) curr.
Proof.
  revert curr. induction lines as [|l lines IH]; intros curr; simpl;
    [tauto|].
  destruct (stdout_line_announced l curr) as [H1 H2].
  destruct (stdout_line l curr) as [calls curr']. simpl in *.
  destruct (IH curr') as [H3 H4].
  destruct (stdout_loop lines curr') as [calls' curr'']. simpl in *.
  rewrite announced_app, last_app_default, <- H2. split; [|exact H4].
  apply changes_app; [exact H1|]. now rewrite <- H2.
Qed.

Lemma announced_warnings (lines : list str) :
  announced (map pushWarning lines) = [].
Proof. induction lines; simpl; congruence. Qed.

Lemma run_from_announced (evs : list (stream * str)) (st : proc_state) :
  changes (stdout_curr st) (announced (fst (run_from st evs)))
  /\ stdout_curr (snd (run_from st evs))
     = last (announced (fst (run_from st evs))) (stdout_curr st).
Proof.
  revert st. induction evs as [|[s chunk] evs IH]; intros st;
    [simpl; tauto|].
  simpl run_from. unfold handle. destruct s.
  - rewrite stdout_handlr_feed.
    destruct (stdout_loop_announced (fst (feed (stdout_buffer st) chunk))
                (stdout_curr st)) as [H1 H2].
    match goal with |- context [run_from ?st' evs] =>
      destruct (IH st') as [H3 H4]; set (st1 := st') in * end.
    destruct (run_from st1 evs) as [calls' st2]. simpl in *.
    rewrite announced_app, last_app_default, <- H2. split; [|exact H4].
    apply changes_app; [exact H1|]. now rewrite <- H2.
  - rewrite stderr_handlr_feed.
    match goal with |- context [run_from ?st' evs] =>
      destruct (IH st') as [H3 H4]; set (st1 := st') in * end.
    destruct (run_from st1 evs) as [calls' st2]. simpl in *.
    rewrite announced_app, announced_warnings. simpl. now split.
Qed.

(** X4: in any run the labels announced by [setProgressText] never
    repeat the one announced just before, the first one is not empty, and
    the label kept in [_curr] is the last one announced, or empty when none
    was. *)
Theorem announcements_never_repeat (evs : list (stream * str)) :
  changes [] (announced (fst (run evs)))
  /\ stdout_curr (snd (run evs)) = last (announced (fst (run evs))) [].
Proof. exact (run_from_announced evs initial_state). Qed.

(** *** One closing call for each line *)

Lemma stdout_line_calls (line curr : str) :
  List.length (filter is_line_call (fst (stdout_line line curr))) = 1%nat
  /\ Forall (fun call => is_line_call call = true
                         \/ exists label, call = setProgressText label)
       (fst (stdout_line line curr)).
Proof.
  unfold stdout_line.
  destruct (Py.split1 COLON (Py.strip line)) as [[label rest]|].
  - destruct (negb (str_eqb label curr)); destruct (Py.int rest); simpl;
      (split; [reflexivity|]);
      repeat (constructor; [first [now left | right; now eexists]|]);
      constructor.
  - simpl. split; [reflexivity|].
    constructor; [now left|constructor].
Qed.

Lemma stdout_loop_calls (lines : list str) (curr : str) :
  List.length (filter is_line_call (fst (stdout_loop lines curr)))
    = List.length lines
  /\ Forall (fun call => is_line_call call = true
                         \/ exists label, call = setProgressText label)
       (fst (stdout_loop lines curr)).
Proof.
  revert curr. induction lines as [|l lines IH]; intros curr; simpl.
  - split; [reflexivity|constructor].
  - destruct (stdout_line_calls l curr) as [H1 H2].
    destruct (stdout_line l curr) as [calls curr']. simpl in *.
    destruct (IH curr') as [H3 H4].
    destruct (stdout_loop lines curr') as [calls' curr'']. simpl in *.
    rewrite filter_app, length_app, H1, H3. split; [reflexivity|].
    apply Forall_app. now split.
Qed.

(** X5: a call of [stdout_handlr] closes each line it iterates over with
    exactly one [setProgress] or [pushInfo], so no line goes unreported, and
    makes no other call than these and [setProgressText]. *)
Theorem one_closing_call_per_line (st : proc_state) (chunk : str) :
  List.length (filter is_line_call (fst (stdout_handlr st chunk)))
    = List.length (fst (feed (stdout_buffer st) chunk))
  /\ Forall (fun call => is_line_call call = true
                         \/ exists label, call = setProgressText label)
       (fst (stdout_handlr st chunk)).
Proof. rewrite stdout_handlr_feed. simpl. apply stdout_loop_calls. Qed.

(** *** Chunks without newline, chunks that end with one *)

Lemma feed_all_no_nl (chunks : list str) (buffer : str) :
  ~ In NL buffer -> Forall (fun c => ~ In NL c) chunks ->
  feed_all buffer chunks = ([], buffer ++ List.concat chunks).
Proof.
  revert buffer. induction chunks as [|c cs IH]; intros buffer Hb Hc; simpl.
  - now rewrite app_nil_r.
  - inversion Hc as [|? ? H1 H2]; subst.
    assert (Hbc : ~ In NL (buffer ++ c)).
    { intros H. apply in_app_or in H. tauto. }
    unfold feed. rewrite endswith_no_sep, rsplit1_no_sep by exact Hbc. simpl.
    rewrite IH by assumption. now rewrite app_assoc.
Qed.

(** X6: as long as no chunk brings a newline, a run on either stream
    makes no call at all, and the buffer holds everything received. *)
Theorem silent_until_newline (chunks : list str) :
  Forall (fun c => ~ In NL c) chunks ->
  run (on Out chunks) =
    ([], {| stdout_buffer := List.concat chunks; stdout_curr := [];
            stderr_buffer := [] |})
  /\ run (on Err chunks) =
       ([], {| stdout_buffer := []; stdout_curr := [];
               stderr_buffer := List.concat chunks |}).
Proof.
  intros H. unfold run. rewrite run_from_out, run_from_err. simpl.
  rewrite (feed_all_no_nl chunks [] (fun F => F) H). simpl. now split.
Qed.

Lemma silent_until_newline_witness :
  Forall (fun c => ~ In NL c) (texts ["build"; ":1"; "0"]) /\
  run (on Out (texts ["build"; ":1"; "0"])) =
    ([], {| stdout_buffer := "build:10"; stdout_curr := [];
            stderr_buffer := [] |}).
Proof.
  assert (H : Forall (fun c => ~ In NL c) (texts ["build"; ":1"; "0"])).
  { vm_compute. repeat constructor; intros H;
      repeat (destruct H as [H|H]; [discriminate H|]); exact H. }
  split; [exact H|]. exact (proj1 (silent_until_newline _ H)).
Defined.

Lemma endswith_app (c : ascii) (a b : str) :
  Py.endswith c b = true -> Py.endswith c (a ++ b) = true.
Proof.
  intros H. apply endswith_true in H as [p ->].
  rewrite app_assoc, endswith_snoc. apply Ascii.eqb_refl.
Qed.

Lemma feed_all_terminated (chunks : list str) (buffer : str) :
  Forall (fun c => Py.endswith NL c = true) chunks ->
  feed_all buffer chunks =
    (flat_map (fun c => Py.split NL (Py.strip (buffer ++ c))) chunks, buffer).
Proof.
  induction chunks as [|c cs IH]; intros H; [reflexivity|].
  inversion H as [|? ? H1 H2]; subst. simpl. unfold feed.
  rewrite (endswith_app NL buffer c H1). simpl. now rewrite IH.
Qed.

(** X7: while every chunk ends with a newline the buffer never changes:
    each chunk is treated on its own, with the same stored text put before
    it, and the calls of the run are those of the chunks one after the
    other.  With an empty buffer the chunks are treated independently. *)
Theorem terminated_chunks_keep_buffer (st : proc_state) (chunks : list str) :
  Forall (fun c => Py.endswith NL c = true) chunks ->
  run_from st (on Err chunks) =
    (map pushWarning
       (flat_map (fun c => Py.split NL (Py.strip (stderr_buffer st ++ c))) chunks),
     st)
  /\ fst (run_from st (on Out chunks)) =
       fst (stdout_loop
              (flat_map (fun c => Py.split NL (Py.strip (stdout_buffer st ++ c)))
                 chunks)
              (stdout_curr st))
  /\ stdout_buffer (snd (run_from st (on Out chunks))) = stdout_buffer st.
Proof.
  intros H. rewrite run_from_err, run_from_out.
  rewrite !(feed_all_terminated chunks _ H). simpl.
  destruct st; repeat split.
Qed.

Lemma terminated_chunks_keep_buffer_witness :
  Forall (fun c => Py.endswith NL c = true) (texts ["a\nb\n"; " c \n"]) /\
  run_from {| stdout_buffer := []; stdout_curr := []; stderr_buffer := "x" |}
           (on Err (texts ["a\nb\n"; " c \n"])) =
    ([pushWarning "xa"; pushWarning "b"; pushWarning "x c"],
     {| stdout_buffer := []; stdout_curr := []; stderr_buffer := "x" |}).
Proof.
  assert (H : Forall (fun c => Py.endswith NL c = true)
                (texts ["a\nb\n"; " c \n"])).
  { repeat constructor. }
  split; [exact H|].
  exact (proj1 (terminated_chunks_keep_buffer
                  {| stdout_buffer := []; stdout_curr := [];
                     stderr_buffer := "x" |} _ H)).
Defined.

(** *** Blank text *)

Lemma lstrip_all_space (s : str) :
  forallb Py.isspace s = true -> Py.lstrip s = [].
Proof.
  induction s as [|d s IH]; simpl; [reflexivity|].
  intros H. apply andb_true_iff in H as [H1 H2]. rewrite H1. now apply IH.
Qed.

Lemma strip_all_space (s : str) :
  forallb Py.isspace s = true -> Py.strip s = [].
Proof. intros H. unfold Py.strip. now rewrite lstrip_all_space. Qed.

Lemma feed_blank (buffer chunk : str) :
  In NL (buffer ++ chunk) ->
  forallb Py.isspace (buffer ++ chunk) = true ->
  fst (feed buffer chunk) = [[]].
Proof.
  intros Hin Hs. unfold feed.
  destruct (negb (Py.endswith NL (buffer ++ chunk))).
  - destruct (Py.rsplit1 NL (buffer ++ chunk)) as [[a b]|] eqn:R.
    + apply rsplit1_some in R as [R _]. rewrite R in Hs.
      rewrite forallb_app in Hs. apply andb_true_iff in Hs as [Ha _].
      simpl. now rewrite strip_all_space.
    + apply rsplit1_none in R. contradiction.
  - simpl. now rewrite strip_all_space.
Qed.

(** X8: when the text of a call holds a newline and nothing but
    whitespace, however many blank lines that makes, the call reports a
    single empty line: one [pushInfo] with the empty text on the output
    stream, the current label unchanged, one [pushWarning] with the empty
    text on the error stream. *)
Theorem blank_text_gives_one_empty_line (st : proc_state) (chunk : str) :
  (In NL (stdout_buffer st ++ chunk) ->
   forallb Py.isspace (stdout_buffer st ++ chunk) = true ->
   fst (stdout_handlr st chunk) = [pushInfo []]
   /\ stdout_curr (snd (stdout_handlr st chunk)) = stdout_curr st)
  /\ (In NL (stderr_buffer st ++ chunk) ->
      forallb Py.isspace (stderr_buffer st ++ chunk) = true ->
      fst (stderr_handlr st chunk) = [pushWarning []]).
Proof.
  split.
  - intros Hin Hs. rewrite stdout_handlr_feed. simpl.
    rewrite (feed_blank _ _ Hin Hs). now split.
  - intros Hin Hs. rewrite stderr_handlr_feed. simpl.
    now rewrite (feed_blank _ _ Hin Hs).
Qed.

Lemma blank_text_gives_one_empty_line_witness :
  fst (stdout_handlr initial_state "\n \n\n") = [pushInfo []] /\
  fst (stderr_handlr initial_state "\n \n\n") = [pushWarning []].
Proof.
  assert (Hin : In NL (of_string "" ++ of_string "\n \n\n")) by now left.
  assert (Hs : forallb Py.isspace (of_string "" ++ of_string "\n \n\n") = true)
    by reflexivity.
  split.
  - exact (proj1 (proj1 (blank_text_gives_one_empty_line initial_state
                           "\n \n\n") Hin Hs)).
  - exact (proj2 (blank_text_gives_one_empty_line initial_state "\n \n\n")
             Hin Hs).
Defined.

(** *** Lines and labels *)

Lemma lstrip_decomp (s : str) :
  exists w, s = w ++ Py.lstrip s /\ forallb Py.isspace w = true.
Proof.
  induction s as [|d s [w [IH1 IH2]]]; [now exists []|]. simpl.
  destruct (Py.isspace d) eqn:E.
  - exists (d :: w). simpl. rewrite E, IH2. now rewrite <- IH1.
  - now exists [].
Qed.

Lemma rstrip_decomp (s : str) :
  exists w, s = Py.rstrip s ++ w /\ forallb Py.isspace w = true.
Proof.
  destruct (lstrip_decomp (rev s)) as [w [H1 H2]].
  exists (rev w). split.
  - unfold Py.rstrip. rewrite <- rev_app_distr, <- H1.
    now rewrite rev_involutive.
  - apply forallb_forall. intros x Hx. apply in_rev in Hx.
    now apply (proj1 (forallb_forall _ _) H2).
Qed.

Lemma in_strip (c : ascii) (s : str) : In c (Py.strip s) -> In c s.
Proof.
  intros H. unfold Py.strip in H.
  destruct (lstrip_decomp s) as [w [H1 _]].
  destruct (rstrip_decomp (Py.lstrip s)) as [w' [H2 _]].
  rewrite H1, H2. apply in_or_app. right. apply in_or_app. now left.
Qed.

Lemma lstrip_head (s : str) :
  Py.lstrip s = [] \/ starts_nonspace (Py.lstrip s) = true.
Proof.
  induction s as [|d s IH]; simpl; [now left|].
  destruct (Py.isspace d) eqn:E; [exact IH|]. right. simpl. now rewrite E.
Qed.

Lemma strip_head (s : str) :
  Py.strip s = [] \/ starts_nonspace (Py.strip s) = true.
Proof.
  unfold Py.strip. destruct (lstrip_head s) as [H|H]; [left; now rewrite H|].
  destruct (rstrip_decomp (Py.lstrip s)) as [w [H1 H2]].
  destruct (Py.rstrip (Py.lstrip s)) as [|d r] eqn:E; [now left|]. right.
  rewrite H1 in H. exact H.
Qed.

Lemma split1_some (c : ascii) (s a b : str) :
  Py.split1 c s = Some (a, b) -> s = a ++ c :: b /\ ~ In c a.
Proof.
  revert a. induction s as [|d s IH]; intros a; simpl; [discriminate|].
  destruct (Ascii.eqb_spec d c) as [->|Hd].
  - intros [= <- <-]. split; [reflexivity|tauto].
  - destruct (Py.split1 c s) as [[a' b']|]; [|discriminate].
    intros [= <- <-]. destruct (IH a' eq_refl) as [-> Ha].
    split; [reflexivity|]. intros [H|H]; [congruence|tauto].
Qed.

(** X9: a line that holds no colon is pushed as information, as it is,
    and nothing else happens: no label is announced and the current label
    stays. *)
Theorem line_without_colon_is_information (line curr : str) :
  ~ In COLON line -> stdout_line line curr = ([pushInfo line], curr).
Proof.
  intros H. apply stdout_line_no_colon. apply split1_none.
  intros Hin. apply H. now apply in_strip with (1 := Hin).
Qed.

Lemma line_without_colon_is_information_witness :
  ~ In COLON (of_string "  done ") /\
  stdout_line "  done " "build" = ([pushInfo "  done "], of_string "build").
Proof.
  assert (H : ~ In COLON (of_string "  done ")).
  { vm_compute. intros H. repeat (destruct H as [H|H]; [discriminate H|]).
    exact H. }
  split; [exact H|].
  exact (line_without_colon_is_information "  done " "build" H).
Defined.

(** X10: a label that [stdout_line] announces holds no colon, does not
    begin with whitespace, and is not the current label; it is the text of
    the stripped line before its first colon. *)
Theorem announced_label_shape (line curr label : str) :
  In (setProgressText label) (fst (stdout_line line curr)) ->
  ~ In COLON label /\ Py.lstrip label = label /\ label <> curr
  /\ exists rest, Py.strip line = label ++ COLON :: rest.
Proof.
  unfold stdout_line.
  destruct (Py.split1 COLON (Py.strip line)) as [[l rest]|] eqn:S.
  - destruct (str_eqb l curr) eqn:E; simpl.
    + destruct (Py.int rest); simpl; intros [H|[]]; discriminate H.
    + intros H.
      assert (Hl : l = label).
      { destruct (Py.int rest); simpl in H;
          destruct H as [H|[H|[]]]; congruence. }
      subst l. apply split1_some in S as [S Hc].
      split; [exact Hc|]. split; [|split; [|now exists rest]].
      * destruct (strip_head line) as [H0|H0]; rewrite S in H0.
        -- destruct label; discriminate H0.
        -- destruct label as [|d label]; [reflexivity|].
           simpl in H0. apply negb_true_iff in H0. simpl. now rewrite H0.
      * intros ->. rewrite (proj2 (str_eqb_eq curr curr) eq_refl) in E.
        discriminate.
  - simpl. intros [H|[]]. discriminate H.
Qed.

Lemma announced_label_shape_witness :
  In (setProgressText "load x") (fst (stdout_line "  load x: 7" "build")) /\
  Py.lstrip "load x" = of_string "load x" /\
  Py.strip "  load x: 7" = of_string "load x" ++ COLON :: of_string " 7".
Proof.
  assert (H : In (setProgressText "load x")
                (fst (stdout_line "  load x: 7" "build"))) by now left.
  split; [exact H|].
  destruct (announced_label_shape "  load x: 7" "build" "load x" H)
    as [_ [H2 _]].
  split; [exact H2|reflexivity].
Defined.

(** ** The command echoed by [qgis_nadi_proc] *)

(** X11: the third call of [qgis_nadi_proc] pushes the arguments joined
    by single spaces; cutting that line at its spaces gives the arguments
    back exactly when none of them holds a space. *)
Theorem echoed_command_splits_back (nadi_bin : str) (cmd : list str) :
  cmd <> [] ->
  nth_error (qgis_nadi_proc nadi_bin cmd) 2
    = Some (pushCommandInfo (Py.join SPACE cmd))
  /\ (Py.split SPACE (Py.join SPACE cmd) = cmd
      <-> Forall (fun a => ~ In SPACE a) cmd).
Proof.
  intros Hne. split; [reflexivity|]. split.
  - intros H. rewrite <- H. apply split_segments.
  - now apply split_join.
Qed.

Lemma echoed_command_splits_back_witness :
  texts ["order"; "--reverse"; "in.gpkg"] <> [] /\
  Forall (fun a => ~ In SPACE a) (texts ["order"; "--reverse"; "in.gpkg"]) /\
  Py.split SPACE (of_string "order --reverse in.gpkg")
    = texts ["order"; "--reverse"; "in.gpkg"].
Proof.
  assert (Hne : texts ["order"; "--reverse"; "in.gpkg"] <> []) by discriminate.
  assert (H : Forall (fun a => ~ In SPACE a)
                (texts ["order"; "--reverse"; "in.gpkg"])).
  { vm_compute. repeat constructor; intros H;
      repeat (destruct H as [H|H]; [discriminate H|]); exact H. }
  split; [exact Hne|]. split; [exact H|].
  exact (proj2 (proj2 (echoed_command_splits_back [] _ Hne)) H).
Defined.

(** ** The classes of the order renderer *)

Lemma classes_unfold (m : Z) :
  LayerPostProcessor.classes m =
  [ (m * 0 / 100, m * 1 / 100); (m * 1 / 100, m * 2 / 100);
    (m * 2 / 100, m * 4 / 100); (m * 4 / 100, m * 12 / 100);
    (m * 12 / 100, m * 50 / 100); (m * 50 / 100, m) ]%Z.
Proof. reflexivity. Qed.

(** X12: the renderer gets six classes that follow one another from 0
    to the maximum order, each starting where the one before ends; when the
    maximum is not negative no class has its lower bound above its upper
    bound. *)
Theorem classes_cover_the_orders (max_ord : Z) :
  List.length (LayerPostProcessor.classes max_ord) = 6%nat
  /\ chained 0 (LayerPostProcessor.classes max_ord) max_ord
  /\ ((0 <= max_ord)%Z ->
      Forall (fun c => (fst c <= snd c)%Z) (LayerPostProcessor.classes max_ord)).
Proof.
  rewrite classes_unfold. split; [reflexivity|]. split.
  - simpl. rewrite Z.mul_0_r. repeat split.
  - intros H. repeat constructor; simpl;
      try (apply Z.div_le_mono; lia).
    apply Z.div_le_upper_bound; lia.
Qed.

Lemma classes_cover_the_orders_witness :
  (0 <= 250)%Z /\
  LayerPostProcessor.classes 250 =
    [(0, 2); (2, 5); (5, 10); (10, 30); (30, 125); (125, 250)]%Z /\
  Forall (fun c => (fst c <= snd c)%Z) (LayerPostProcessor.classes 250).
Proof.
  assert (H : (0 <= 250)%Z) by lia.
  split; [exact H|]. split; [reflexivity|].
  exact (proj2 (proj2 (classes_cover_the_orders 250)) H).
Defined.

(** X13: from a maximum order of 100 on, every class has its lower bound
    strictly below its upper bound; below 100 the first class is the empty
    range from 0 to 0. *)
Theorem classes_proper_from_100 (max_ord : Z) :
  ((100 <= max_ord)%Z ->
   Forall (fun c => (fst c < snd c)%Z) (LayerPostProcessor.classes max_ord))
  /\ ((0 <= max_ord < 100)%Z ->
      hd (0, 0)%Z (LayerPostProcessor.classes max_ord) = (0, 0)%Z).
Proof.
  rewrite classes_unfold. split.
  - intros H.
    pose proof (Z.div_mod (max_ord * 1) 100 ltac:(lia)) as E1.
    pose proof (Z.mod_pos_bound (max_ord * 1) 100 ltac:(lia)) as B1.
    pose proof (Z.div_mod (max_ord * 2) 100 ltac:(lia)) as E2.
    pose proof (Z.mod_pos_bound (max_ord * 2) 100 ltac:(lia)) as B2.
    pose proof (Z.div_mod (max_ord * 4) 100 ltac:(lia)) as E4.
    pose proof (Z.mod_pos_bound (max_ord * 4) 100 ltac:(lia)) as B4.
    pose proof (Z.div_mod (max_ord * 12) 100 ltac:(lia)) as E12.
    pose proof (Z.mod_pos_bound (max_ord * 12) 100 ltac:(lia)) as B12.
    pose proof (Z.div_mod (max_ord * 50) 100 ltac:(lia)) as E50.
    pose proof (Z.mod_pos_bound (max_ord * 50) 100 ltac:(lia)) as B50.
    rewrite Z.mul_0_r, Zdiv_0_l.
    repeat constructor; simpl; lia.
  - intros H. simpl. rewrite Z.mul_0_r, Zdiv_0_l, Z.mul_1_r.
    now rewrite Z.div_small by lia.
Qed.

Lemma classes_proper_from_100_witness :
  (100 <= 100)%Z /\ (0 <= 99 < 100)%Z /\
  Forall (fun c => (fst c < snd c)%Z) (LayerPostProcessor.classes 100) /\
  LayerPostProcessor.classes 99 =
    [(0, 0); (0, 1); (1, 3); (3, 11); (11, 49); (49, 99)]%Z.
Proof.
  assert (H1 : (100 <= 100)%Z) by lia.
  assert (H2 : (0 <= 99 < 100)%Z) by lia.
  split; [exact H1|]. split; [exact H2|]. split; [|reflexivity].
  exact (proj1 (classes_proper_from_100 100) H1).
Defined.

(** ** The commands *)

(** X14: the command of the network algorithm always begins with
    "network", "--ignore-spatial-ref" and "--verbose" and always ends with
    the points layer, the streams layer, "--network" and the connections
    path, in that order, with at most eight arguments of options between
    them; a parameter OUTPUT or SNAP_LINES that is missing makes the same
    command as one that is the temporary output. *)
Theorem network_command_shape (as_posix : str -> str)
    (streams points : str * str) (reverse simplify : bool) (points_id : str)
    (connection snap_lines output : str)
    (output_param snap_param : option bool) :
  (exists options,
      NadiNetwork.processAlgorithm_cmd as_posix streams points reverse
        simplify points_id connection snap_lines output output_param snap_param
      = texts ["network"; "--ignore-spatial-ref"; "--verbose"] ++ options
        ++ [layer_file as_posix points; layer_file as_posix streams;
            of_string "--network"; as_posix connection]
      /\ (List.length options <= 8)%nat)
  /\ NadiNetwork.processAlgorithm_cmd as_posix streams points reverse
       simplify points_id connection snap_lines output None snap_param
     = NadiNetwork.processAlgorithm_cmd as_posix streams points reverse
         simplify points_id connection snap_lines output (Some false) snap_param
  /\ NadiNetwork.processAlgorithm_cmd as_posix streams points reverse
       simplify points_id connection snap_lines output output_param None
     = NadiNetwork.processAlgorithm_cmd as_posix streams points reverse
         simplify points_id connection snap_lines output output_param (Some false).
Proof.
  split; [|split; reflexivity].
  unfold NadiNetwork.processAlgorithm_cmd.
  exists ((if reverse then texts ["--reverse"] else [])
          ++ (if simplify then texts ["--endpoints"] else [])
          ++ match points_id with
             | _ :: _ => [of_string "--points-field"; points_id]
             | [] => []
             end
          ++ match output_param with
             | Some true => [of_string "--output"; output]
             | _ => []
             end
          ++ match snap_param with
             | Some true => [of_string "--snap-line"; as_posix snap_lines]
             | _ => []
             end).
  split.
  - destruct reverse, simplify, points_id as [|d points_id],
      output_param as [[|]|], snap_param as [[|]|]; reflexivity.
  - destruct reverse, simplify, points_id as [|d points_id],
      output_param as [[|]|], snap_param as [[|]|]; simpl; lia.
Qed.

(** ** No call carries a newline *)

Lemma feed_lines_no_nl (buffer chunk : str) :
  Forall (fun l => ~ In NL l) (fst (feed buffer chunk)).
Proof.
  unfold feed. destruct (negb (Py.endswith NL (buffer ++ chunk))).
  - destruct (Py.rsplit1 NL (buffer ++ chunk)) as [[a b]|]; simpl.
    + apply split_segments.
    + constructor.
  - apply split_segments.
Qed.

Lemma stdout_line_texts (line curr : str) :
  ~ In NL line ->
  Forall (fun call => ~ In NL (call_text call)) (fst (stdout_line line curr)).
Proof.
  intros Hl. unfold stdout_line.
  destruct (Py.split1 COLON (Py.strip line)) as [[label rest]|] eqn:S.
  - apply split1_some in S as [S _].
    assert (Hlab : ~ In NL label).
    { intros H. apply Hl. apply in_strip. rewrite S.
      apply in_or_app. now left. }
    destruct (negb (str_eqb label curr)); destruct (Py.int rest); simpl;
      repeat (constructor; [simpl; tauto|]); constructor.
  - simpl. constructor; [exact Hl|constructor].
Qed.

Lemma stdout_loop_texts (lines : list str) (curr : str) :
  Forall (fun l => ~ In NL l) lines ->
  Forall (fun call => ~ In NL (call_text call)) (fst (stdout_loop lines curr)).
Proof.
  revert curr. induction lines as [|l lines IH]; intros curr H; simpl;
    [constructor|].
  inversion H as [|? ? H1 H2]; subst.
  pose proof (stdout_line_texts l curr H1) as Hl.
  destruct (stdout_line l curr) as [calls curr']. specialize (IH curr' H2).
  destruct (stdout_loop lines curr') as [calls' curr'']. simpl in *.
  apply Forall_app. now split.
Qed.

(** X15: whatever the state and the chunk, the text of every call that
    a handler makes (a label, an information, a warning) holds no newline. *)
Theorem calls_carry_no_newline (st : proc_state) (chunk : str) :
  Forall (fun call => ~ In NL (call_text call)) (fst (stdout_handlr st chunk))
  /\ Forall (fun call => ~ In NL (call_text call)) (fst (stderr_handlr st chunk)).
Proof.
  rewrite stdout_handlr_feed, stderr_handlr_feed. simpl. split.
  - apply stdout_loop_texts, feed_lines_no_nl.
  - apply Forall_map. simpl. apply feed_lines_no_nl.
Qed.

(** ** The buffer after a call that does not end a line *)

(** X16: when the text of a call (the buffer and the chunk) does not end
    with a newline, the handler leaves in its buffer exactly what follows
    the last newline of that text, the whole text when it has none. *)
Theorem buffer_is_pending_suffix (st : proc_state) (chunk : str) :
  (Py.endswith NL (stdout_buffer st ++ chunk) = false ->
   stdout_buffer (snd (stdout_handlr st chunk))
     = spec_pending (stdout_buffer st ++ chunk))
  /\ (Py.endswith NL (stderr_buffer st ++ chunk) = false ->
      stderr_buffer (snd (stderr_handlr st chunk))
        = spec_pending (stderr_buffer st ++ chunk)).
Proof.
  split; intros H.
  - rewrite stdout_handlr_feed. simpl. now apply buffer_after_partial.
  - rewrite stderr_handlr_feed. simpl. now apply buffer_after_partial.
Qed.

Lemma buffer_is_pending_suffix_witness :
  Py.endswith NL (of_string "bui" ++ of_string "ld:5\nload:1") = false /\
  stdout_buffer
    (snd (stdout_handlr {| stdout_buffer := "bui"; stdout_curr := [];
                           stderr_buffer := [] |} "ld:5\nload:1"))
    = of_string "load:1".
Proof.
  assert (H : Py.endswith NL (of_string "bui" ++ of_string "ld:5\nload:1")
              = false) by reflexivity.
  split; [exact H|].
  exact (proj1 (buffer_is_pending_suffix
                  {| stdout_buffer := "bui"; stdout_curr := [];
                     stderr_buffer := [] |} "ld:5\nload:1") H).
Defined.

(** ** The limit of [int] on the number of digits *)

Example int_digit_limit :
  Py.int (repeat "9"%char 4300) = Some (10 ^ 4300 - 1)%Z
  /\ Py.int (repeat "9"%char 4301) = None.
Proof. vm_compute. split; reflexivity. Qed.

(** ** C8 *)

Lemma feed_lines_clean (buffer chunk : str) :
  all_clean (spec_lines (buffer ++ chunk)) ->
  fst (feed buffer chunk) = spec_lines (buffer ++ chunk).
Proof.
  intros Hc. unfold feed.
  destruct (Py.endswith NL (buffer ++ chunk)) eqn:E; simpl negb; cbv iota.
  - apply endswith_true in E as [p E]. rewrite E in *.
    rewrite spec_lines_app in *. apply Forall_app in Hc as [Hp _].
    simpl. rewrite strip_clean_nl by now apply clean_lines.
    change (spec_lines []) with (@nil str). now rewrite app_nil_r.
  - destruct (Py.rsplit1 NL (buffer ++ chunk)) as [[a b]|] eqn:R.
    + apply rsplit1_some in R as [R Hb]. rewrite R in *.
      rewrite spec_lines_app in *. apply Forall_app in Hc as [Hp _].
      simpl. rewrite strip_clean by now apply clean_lines.
      now rewrite (spec_lines_no_nl b Hb), app_nil_r.
    + apply rsplit1_none in R. simpl. now rewrite spec_lines_no_nl.
Qed.

Lemma feed_all_lines_clean (chunks : list str) :
  forall buffer : str,
    ~ In NL buffer ->
    no_stale_before buffer chunks = true ->
    all_clean (spec_lines (buffer ++ List.concat chunks)) ->
    fst (feed_all buffer chunks) = spec_lines (buffer ++ List.concat chunks).
Proof.
  induction chunks as [|c cs IH]; intros buffer Hb Hs Hc.
  - simpl. rewrite app_nil_r. now rewrite spec_lines_no_nl.
  - destruct cs as [|c' cs].
    + simpl List.concat in *. rewrite app_nil_r in *. simpl feed_all.
      pose proof (feed_lines_clean buffer c Hc) as Hf.
      destruct (feed buffer c) as [ls b]. simpl in *.
      now rewrite app_nil_r.
    + remember (c' :: cs) as cs' eqn:Ecs.
      assert (Hs' : (negb (Py.endswith NL (buffer ++ c))
                     || match buffer with [] => true | _ :: _ => false end)
                    && no_stale_before (spec_pending (buffer ++ c)) cs' = true).
      { subst cs'. exact Hs. }
      clear Hs. apply andb_true_iff in Hs' as [Hs1 Hs2].
      simpl List.concat in *. rewrite app_assoc in *.
      simpl feed_all. unfold feed.
      destruct (Py.endswith NL (buffer ++ c)) eqn:E; simpl negb; cbv iota.
      * destruct buffer as [|x buffer]; [|discriminate Hs1].
        simpl app in *. apply endswith_true in E as [p ->].
        rewrite <- app_assoc in *. simpl app in *.
        rewrite spec_pending_app in Hs2.
        rewrite spec_lines_app in Hc. rewrite spec_lines_app.
        apply Forall_app in Hc as [Hp Hr].
        rewrite strip_clean_nl by now apply clean_lines.
        pose proof (IH [] (fun H => H) Hs2 Hr) as Hi.
        destruct (feed_all [] cs') as [ls' b']. simpl in *. now rewrite Hi.
      * destruct (Py.rsplit1 NL (buffer ++ c)) as [[a b]|] eqn:R.
        -- apply rsplit1_some in R as [R Hnb]. rewrite R in *.
           rewrite <- app_assoc in *. simpl app in *.
           rewrite spec_pending_app, spec_pending_no_nl in Hs2 by exact Hnb.
           rewrite spec_lines_app in Hc. rewrite spec_lines_app.
           apply Forall_app in Hc as [Hp Hr].
           rewrite strip_clean by now apply clean_lines.
           pose proof (IH b Hnb Hs2 Hr) as Hi.
           destruct (feed_all b cs') as [ls' b']. simpl in *. now rewrite Hi.
        -- apply rsplit1_none in R.
           rewrite spec_pending_no_nl in Hs2 by exact R.
           pose proof (IH (buffer ++ c) R Hs2 Hc) as Hi.
           destruct (feed_all (buffer ++ c) cs') as [ls' b']. simpl in *.
           exact Hi.
Qed.

Lemma spec_reassemble (ls : list str) (rest : str) :
  Forall (fun l => ~ In NL l) ls -> ~ In NL rest ->
  spec_lines (reassemble ls rest) = ls
  /\ spec_pending (reassemble ls rest) = rest.
Proof.
  intros Hl Hr. unfold reassemble.
  induction ls as [|l ls IH]; simpl.
  - now rewrite spec_lines_no_nl, spec_pending_no_nl.
  - inversion Hl as [|? ? H1 H2]; subst. destruct (IH H2) as [IH1 IH2].
    rewrite <- !app_assoc. simpl.
    rewrite spec_lines_app, spec_pending_app, split_no_sep by exact H1.
    simpl. now rewrite IH1, IH2.
Qed.

(** C8, as stated, fails: of the chunk "\n a \n" on the error stream,
    whose complete lines are "" and " a ", the handler makes the one warning
    "a": the empty line gets no warning and the other one loses its
    blanks. *)
Lemma warning_text_is_stripped :
  spec_lines "\n a \n" = texts [""; " a "] /\
  fst (run (on Err (texts ["\n a \n"]))) = [pushWarning "a"] /\
  fst (run (on Err (texts ["\n a \n"])))
    <> map pushWarning (spec_lines "\n a \n").
Proof. vm_compute. repeat split. discriminate. Qed.

(** C8, amended: every call that [stderr_handlr] makes is a warning,
    whatever the text holds, and it leaves the buffer and the label of the
    output stream alone.  When the text received on the error stream is made
    of clean lines, each ended by a newline, and of an unfinished rest, and
    no call but the last finds a newline at the end of its text while a
    partial line is stored, then however the chunks are cut and mixed with
    chunks of the output stream, the warnings of the run are exactly those
    lines, one warning each, in order, with the text of the line, be it in
    the shape of a progress line; and when the last call does not either,
    the rest is what the buffer holds.  Blank lines and whitespace at the
    ends of the text of a call are stripped. *)
Theorem error_stream_routing (st : proc_state) (chunk : str)
    (evs : list (stream * str)) (ls : list str) (rest : str) :
  Forall (fun call => exists text, call = pushWarning text)
    (fst (stderr_handlr st chunk))
  /\ stdout_curr (snd (stderr_handlr st chunk)) = stdout_curr st
  /\ stdout_buffer (snd (stderr_handlr st chunk)) = stdout_buffer st
  /\ (List.concat (chunks_of Err evs) = reassemble ls rest ->
      all_clean ls ->
      Forall (fun l => ~ In NL l) ls ->
      ~ In NL rest ->
      no_stale_before [] (chunks_of Err evs) = true ->
      filter is_warning (fst (run evs)) = map pushWarning ls
      /\ (no_stale [] (chunks_of Err evs) = true ->
          stderr_buffer (snd (run evs)) = rest)).
Proof.
  rewrite stderr_handlr_feed. simpl. repeat split.
  - apply Forall_forall. intros call Hin. apply in_map_iff in Hin.
    destruct Hin as [text [<- _]]. now exists text.
  - destruct (run_from_streams evs initial_state) as [_ [Hw _]].
    unfold run. rewrite Hw, run_from_err. simpl.
    destruct (spec_reassemble ls rest H1 H2) as [Hl _].
    rewrite (feed_all_lines_clean _ [] (fun F => F) H3); simpl; rewrite H.
    + now rewrite Hl.
    + now rewrite Hl.
  - intros Hs. destruct (run_from_streams evs initial_state) as [Hst _].
    unfold run. rewrite Hst, run_from_err. simpl.
    destruct (spec_reassemble ls rest H1 H2) as [Hl Hp].
    rewrite (feed_all_clean _ [] (fun F => F) Hs); simpl; rewrite H.
    + exact Hp.
    + now rewrite Hl.
Qed.

Lemma error_stream_routing_witness :
  no_stale_before [] (texts ["warn one\nbuild:"; "50\n"]) = true /\
  filter is_warning
    (fst (run [(Err, of_string "warn one\nbuild:");
               (Out, of_string "load:5\n");
               (Err, of_string "50\n")]))
    = [pushWarning "warn one"; pushWarning "build:50"] /\
  stderr_buffer
    (snd (run [(Err, of_string "warn one\nbu");
               (Out, of_string "load:5\n");
               (Err, of_string "ild:50\nwarn")]))
    = of_string "warn".
Proof.
  assert (Hc : all_clean (texts ["warn one"; "build:50"]))
    by (repeat constructor).
  assert (Hn : Forall (fun l => ~ In NL l) (texts ["warn one"; "build:50"])).
  { vm_compute. repeat constructor; intros H;
      repeat (destruct H as [H|H]; [discriminate H|]); exact H. }
  assert (Hr : ~ In NL (of_string "")) by (intros []).
  assert (Hr' : ~ In NL (of_string "warn")).
  { vm_compute. intros H. repeat (destruct H as [H|H]; [discriminate H|]).
    exact H. }
  split; [reflexivity|]. split.
  - exact (proj1 (proj2 (proj2 (proj2
             (error_stream_routing initial_state []
                [(Err, of_string "warn one\nbuild:");
                 (Out, of_string "load:5\n");
                 (Err, of_string "50\n")]
                (texts ["warn one"; "build:50"]) "")))
             eq_refl Hc Hn Hr eq_refl)).
  - exact (proj2 (proj2 (proj2 (proj2
             (error_stream_routing initial_state []
                [(Err, of_string "warn one\nbu");
                 (Out, of_string "load:5\n");
                 (Err, of_string "ild:50\nwarn")]
                (texts ["warn one"; "build:50"]) "warn")))
             eq_refl Hc Hn Hr' eq_refl) eq_refl).
Defined.
